(** * Back-test workbench: a shallow embedding of the front-end logic

    The JavaScript components of the workbench (ActionRow, SummaryBar,
    ResultsPanel, StrategyEditor, App) are embedded as Rocq functions,
    component by component, followed by the properties proved of them.

    - JavaScript numbers are IEEE-754 binary64 values: the primitive
      [float] type, with the same arithmetic and comparisons.  A rule's
      priority is an integer.
    - A numeric property that comes from a server response may be
      missing ([undefined]) or [null]; it is a [Js.field], and arithmetic
      on it goes through [ToNumber], exactly as the [+], [>], [<]
      operators do.  The two lists of a response may be missing too.
    - A component that may throw returns a [completion].
    - Event handlers that change React state are state transformers; an
      array that is changed in place is returned as it is afterwards.
    - To the editor's export and import a strategy is any JSON value;
      [JSON.stringify] and [JSON.parse] are embedded over UTF-16 code
      units. *)

From Stdlib Require Import List String Ascii Bool ZArith NArith Lia.
From Stdlib Require Import Floats.
From Stdlib Require Import DecimalPos DecimalZ.
From Stdlib Require Import Sorting.Sorted Sorting.Permutation.
Import ListNotations.
Open Scope string_scope.
Open Scope list_scope.


(* ================================================================= *)
(** * JavaScript values used by the components *)

Module Js.

(** A numeric property of a JSON response: the key may be missing
    ([undefined] when read), hold [null], or hold a number. *)
Inductive field : Type :=
| Absent
| Null
| Number (x : float).

(** ToNumber: [undefined] converts to NaN, [null] to zero. *)
Definition ToNumber (v : field) : float :=
  match v with
  | Number x => x
  | Null => 0%float
  | Absent => nan
  end.

(** ToBoolean on a number: NaN, +0 and -0 are falsy. *)
Definition truthy (x : float) : bool :=
  negb (is_nan x || is_zero x).

(** [x || d] on numbers. *)
Definition or_else (x d : float) : float :=
  if truthy x then x else d.

(** [s || ''] on a string property that may be absent. *)
Definition or_empty (s : option string) : string :=
  match s with
  | Some t => t
  | None => EmptyString
  end.

(** ToBoolean on a string: only the empty string is falsy. *)
Definition truthy_string (s : string) : bool :=
  match s with
  | EmptyString => false
  | String _ _ => true
  end.

(** The outcome of evaluating code that may throw. *)
Inductive completion (A : Type) : Type :=
| Returns (a : A)
| Throws (error_name : string).
Arguments Returns {A} a.
Arguments Throws {A} error_name.

Definition bind {A B} (c : completion A) (k : A -> completion B)
  : completion B :=
  match c with
  | Returns a => k a
  | Throws e => Throws e
  end.

Definition TypeError : string := "TypeError".

(** Text put on the page.  [Fixed x d] stands for the string
    [x.toFixed(d)], [Shown x] for a number rendered as a child. *)
Inductive piece : Type :=
| Lit (s : string)
| Fixed (x : float) (digits : nat)
| Shown (x : float)
| Blank.

Definition cell := list piece.

(** [v.toFixed(d)]: a method call on [undefined] or [null] throws. *)
Definition toFixed (v : field) (d : nat) : completion piece :=
  match v with
  | Number x => Returns (Fixed x d)
  | Absent | Null => Throws TypeError
  end.

(** [v?.toFixed(d)]: on [undefined] and [null] optional chaining yields
    [undefined], which renders as nothing. *)
Definition toFixed_opt (v : field) (d : nat) : piece :=
  match v with
  | Number x => Fixed x d
  | Absent | Null => Blank
  end.

(** [{v}] for a numeric property rendered as a child; [undefined] and
    [null] render as nothing. *)
Definition shown (v : field) : piece :=
  match v with
  | Number x => Shown x
  | Absent | Null => Blank
  end.

End Js.

Notation "x <- c ;; k" := (Js.bind c (fun x => k))
(at level 61, c at next level, right associativity).

(* ================================================================= *)
(** * Data model *)

Module Condition.
Record t : Type := mk {
  field : string;
  operator : string;
  value : float;
  value_high : option float
}.
End Condition.

Module Action.
Record t : Type := mk {
  target : string;
  bet_type : string;
  stake : float
}.
End Action.

Module Rule.
Record t : Type := mk {
  id : string;
  name : string;
  priority : Z;
  conditions : list Condition.t;
  actions : list Action.t;
  stop_on_match : bool
}.
End Rule.

Module Strategy.
Record t : Type := mk {
  id : string;
  name : string;
  rules : list Rule.t
}.
End Strategy.

Module BetOutcome.
Record t : Type := mk {
  market_id : string;
  rule_id : string;
  runner_name : string;
  bet_type : string;
  price : Js.field;
  stake : Js.field;
  liability : Js.field;
  runner_result : string;
  profit : Js.field
}.
End BetOutcome.

Module Evaluation.
(** [venue] and [market_name] are [None] when missing or [null]. *)
Record t : Type := mk {
  market_id : string;
  venue : option string;
  market_name : option string
}.
End Evaluation.

Module Summary.
Record t : Type := mk {
  total_pnl : Js.field;
  win_count : Js.field;
  loss_count : Js.field;
  roi_percent : Js.field;
  total_stake : Js.field;
  total_liability : Js.field;
  avg_win : Js.field;
  avg_loss : Js.field
}.
End Summary.

Module Results.
(** The response to a simulation request.  Its two lists are [None] when
    the key is missing or [null]. *)
Record t : Type := mk {
  strategy_name : string;
  markets_evaluated : Js.field;
  markets_with_bets : Js.field;
  bets_placed : Js.field;
  bet_outcomes : option (list BetOutcome.t);
  evaluations : option (list Evaluation.t);
  summary : option Summary.t
}.
End Results.

(* ================================================================= *)
(** * ActionRow *)

Module ActionRow.

(** The three controls of a row call [update] with a fixed key. *)
Inductive edit : Type :=
| bet_type (val : string)
| target (val : string)
| stake (val : float).

(** [update(key, val)]: [onChange({ ...action, [key]: val })]. *)
Definition update (action : Action.t) (e : edit) : Action.t :=
  match e with
  | bet_type val =>
      Action.mk (Action.target action) val (Action.stake action)
  | target val =>
      Action.mk val (Action.bet_type action) (Action.stake action)
  | stake val =>
      Action.mk (Action.target action) (Action.bet_type action) val
  end.

(** The stake input's [onChange]:
    [update('stake', parseFloat(e.target.value) || 0)].
    [parsed] is the value of [parseFloat(e.target.value)]: the number the
    text starts with, or NaN when there is none (an empty box). *)
Definition stake_onChange (action : Action.t) (parsed : float) : Action.t :=
  update action (stake (Js.or_else parsed 0%float)).

End ActionRow.

(* ================================================================= *)
(** * SummaryBar *)

Module SummaryBar.

Record stat : Type := mk_stat {
  label : string;
  className : string;
  value : Js.cell
}.

(** [x > 0 ? 'pnl-positive' : x < 0 ? 'pnl-negative' : 'pnl-zero']. *)
Definition pnlClass (total_pnl : Js.field) : string :=
  if (0 <? Js.ToNumber total_pnl)%float then "pnl-positive"
  else if (Js.ToNumber total_pnl <? 0)%float then "pnl-negative"
  else "pnl-zero".

(** [x >= 0 ? '+' : '']. *)
Definition sign (x : Js.field) : Js.piece :=
  if (0 <=? Js.ToNumber x)%float then Js.Lit "+" else Js.Lit "".

(** The Win Rate figure:
    [win_count + loss_count > 0
       ? ((win_count / (win_count + loss_count)) * 100).toFixed(1)
       : '0'], followed by [%]. *)
Definition win_rate_cell (summary : Summary.t) : Js.cell :=
  let w := Js.ToNumber (Summary.win_count summary) in
  let l := Js.ToNumber (Summary.loss_count summary) in
  [ if (0 <? w + l)%float
    then Js.Fixed ((w / (w + l)) * 100)%float 1
    else Js.Lit "0";
    Js.Lit "%" ].

(** The component: [null] without a summary, otherwise the nine
    statistics in document order. *)
Definition SummaryBar (summary : option Summary.t)
  : Js.completion (option (list stat)) :=
  match summary with
  | None => Js.Returns None
  | Some s =>
      let cls := pnlClass (Summary.total_pnl s) in
      pnl <- Js.toFixed (Summary.total_pnl s) 2 ;;
      roi <- Js.toFixed (Summary.roi_percent s) 1 ;;
      staked <- Js.toFixed (Summary.total_stake s) 2 ;;
      liab <- Js.toFixed (Summary.total_liability s) 2 ;;
      avg_win <- Js.toFixed (Summary.avg_win s) 2 ;;
      avg_loss <- Js.toFixed (Summary.avg_loss s) 2 ;;
      Js.Returns (Some
        [ mk_stat "P&L" cls
            [sign (Summary.total_pnl s); Js.Lit "£"; pnl];
          mk_stat "Wins" "pnl-positive" [Js.shown (Summary.win_count s)];
          mk_stat "Losses" "pnl-negative" [Js.shown (Summary.loss_count s)];
          mk_stat "Win Rate" "" (win_rate_cell s);
          mk_stat "ROI" cls [roi; Js.Lit "%"];
          mk_stat "Staked" "" [Js.Lit "£"; staked];
          mk_stat "Liability" "" [Js.Lit "£"; liab];
          mk_stat "Avg Win" "pnl-positive" [Js.Lit "£"; avg_win];
          mk_stat "Avg Loss" "pnl-negative" [Js.Lit "£"; avg_loss] ])
  end.

End SummaryBar.

(* ================================================================= *)
(** * ResultsPanel *)

Module ResultsPanel.

(** The body of the [map] callback that builds the running P&L:
    [runningPnl += o.profit; return { ...o, running_pnl: runningPnl }].
    The accumulator is threaded explicitly; the returned object is the
    outcome paired with its [running_pnl]. *)
Definition step (runningPnl : float) (o : BetOutcome.t) : float :=
  (runningPnl + Js.ToNumber (BetOutcome.profit o))%float.

Fixpoint running_from (runningPnl : float) (bet_outcomes : list BetOutcome.t)
  : list (BetOutcome.t * float) :=
  match bet_outcomes with
  | [] => []
  | o :: rest =>
      let runningPnl' := step runningPnl o in
      (o, runningPnl') :: running_from runningPnl' rest
  end.

(** [let runningPnl = 0; const outcomesWithRunning = bet_outcomes.map(...)]. *)
Definition outcomesWithRunning (bet_outcomes : list BetOutcome.t)
  : list (BetOutcome.t * float) :=
  running_from 0%float bet_outcomes.

(** [evaluations.find(e => e.market_id === o.market_id) || {}]:
    the first evaluation of the outcome's market; [None] stands for the
    object without properties. *)
Definition eval_ (evaluations : list Evaluation.t) (o : BetOutcome.t)
  : option Evaluation.t :=
  find (fun e => String.eqb (Evaluation.market_id e)
                            (BetOutcome.market_id o)) evaluations.

(** Reading a property of [eval_]: [undefined] on the empty object. *)
Definition prop (get : Evaluation.t -> option string)
  (e : option Evaluation.t) : option string :=
  match e with
  | Some e => get e
  | None => None
  end.

Record row : Type := mk_row {
  venue : string;
  market : string;
  runner : string;
  rule : string;
  type : string;
  odds : Js.cell;
  stake : Js.cell;
  liability : Js.cell;
  result : string;
  result_class : string;
  pnl : Js.cell;
  running : Js.cell;
  running_class : string
}.

Definition pnlClass (profit : Js.field) : string :=
  if (0 <? Js.ToNumber profit)%float then "result-win"
  else if (Js.ToNumber profit <? 0)%float then "result-loss"
  else "result-void".

Definition runClass (running_pnl : float) : string :=
  if (0 <? running_pnl)%float then "pnl-positive"
  else if (running_pnl <? 0)%float then "pnl-negative"
  else "pnl-zero".

(** One table row, for an element of [outcomesWithRunning]. *)
Definition render_row (evaluations : list Evaluation.t)
  (o : BetOutcome.t * float) : row :=
  let (o, running_pnl) := o in
  let e := eval_ evaluations o in
  {| venue := Js.or_empty (prop Evaluation.venue e);
     market := Js.or_empty (prop Evaluation.market_name e);
     runner := BetOutcome.runner_name o;
     rule := BetOutcome.rule_id o;
     type := BetOutcome.bet_type o;
     odds := [Js.toFixed_opt (BetOutcome.price o) 2];
     stake := [Js.Lit "£"; Js.toFixed_opt (BetOutcome.stake o) 2];
     liability := [Js.Lit "£"; Js.toFixed_opt (BetOutcome.liability o) 2];
     result := BetOutcome.runner_result o;
     result_class := pnlClass (BetOutcome.profit o);
     pnl := [SummaryBar.sign (BetOutcome.profit o); Js.Lit "£";
             Js.toFixed_opt (BetOutcome.profit o) 2];
     running := [SummaryBar.sign (Js.Number running_pnl); Js.Lit "£";
                 Js.Fixed running_pnl 2];
     running_class := runClass running_pnl |}.

Inductive body : Type :=
| no_bets
| table (rows : list row).

Inductive panel : Type :=
| placeholder
| report (title : string) (summary : option (list SummaryBar.stat))
         (counts : Js.cell) (b : body).

(** The body of the table: [bet_outcomes.length === 0 ? ... : ...].
    Each row calls [evaluations.find], a method call that throws when the
    response has no [evaluations]. *)
Definition table_body (bet_outcomes : list BetOutcome.t)
  (evaluations : option (list Evaluation.t)) : Js.completion body :=
  if Nat.eqb (List.length bet_outcomes) 0 then Js.Returns no_bets
  else
    match evaluations with
    | None => Js.Throws Js.TypeError
    | Some evaluations =>
        Js.Returns
          (table (map (render_row evaluations)
                      (outcomesWithRunning bet_outcomes)))
    end.

(** The component.  Without results it shows the placeholder; otherwise
    the summary bar, the three counters and the table of outcomes.
    [bet_outcomes.map] is a method call that throws when the response has
    no [bet_outcomes]. *)
Definition ResultsPanel (results : option Results.t) : Js.completion panel :=
  match results with
  | None => Js.Returns placeholder
  | Some r =>
      match Results.bet_outcomes r with
      | None => Js.Throws Js.TypeError
      | Some bet_outcomes =>
          b <- table_body bet_outcomes (Results.evaluations r) ;;
          bar <- SummaryBar.SummaryBar (Results.summary r) ;;
          Js.Returns
            (report (Results.strategy_name r) bar
               [Js.shown (Results.markets_evaluated r);
                Js.shown (Results.markets_with_bets r);
                Js.shown (Results.bets_placed r)]
               b)
      end
  end.

End ResultsPanel.

(* ================================================================= *)
(** * Array.prototype.sort *)

Module JsArray.

Set Implicit Arguments.

Section Sort.

Variable A : Type.

(** [comparefn(a, b)]: negative when [a] goes first, positive when [b]
    does, zero when they tie.  The comparators of this program subtract
    two integers. *)
Variable comparefn : A -> A -> Z.

(** [sort] rearranges the array so that it is ordered by [comparefn] and
    keeps elements that tie in their original order (the sort is stable).
    For a comparator that is a consistent ordering this fixes the result;
    it is computed here by stable insertion from the right. *)
Fixpoint insert (x : A) (sorted : list A) : list A :=
  match sorted with
  | [] => [x]
  | y :: rest =>
      if (comparefn x y <=? 0)%Z then x :: y :: rest
      else y :: insert x rest
  end.

Definition sort (array : list A) : list A :=
  fold_right insert [] array.

(** [copy[index] = v] for an index inside the array.  Past the end
    JavaScript would grow the array and leave holes; no handler of the
    editor is called with such an index, and it is [None] here. *)
Fixpoint set (array : list A) (index : nat) (v : A) : option (list A) :=
  match array, index with
  | [], _ => None
  | _ :: rest, O => Some (v :: rest)
  | x :: rest, S i => option_map (cons x) (set rest i v)
  end.

(** [array.filter((_, i) => i !== index)]. *)
Fixpoint remove_at (array : list A) (index : nat) : list A :=
  match array, index with
  | [], _ => []
  | _ :: rest, O => rest
  | x :: rest, S i => x :: remove_at rest i
  end.

End Sort.

End JsArray.

Unset Implicit Arguments.

(* ================================================================= *)
(** * StrategyEditor *)

Module StrategyEditor.

(** The comparator of the render: [(a, b) => a.priority - b.priority]. *)
Definition by_priority (a b : Rule.t) : Z :=
  (Rule.priority a - Rule.priority b)%Z.

(** What a rendered RuleCard holds: its React key, the rule shown and the
    index its [onChange] and [onDelete] handlers are closed over. *)
Record card : Type := mk_card {
  key : string;
  rule : Rule.t;
  index : nat
}.

Fixpoint cards_from (i : nat) (rules : list Rule.t) : list card :=
  match rules with
  | [] => []
  | r :: rest => mk_card (Rule.id r) r i :: cards_from (S i) rest
  end.

(** The render of the rule list:
    [strategy.rules.sort((a, b) => a.priority - b.priority).map(...)].
    [sort] works in place on the array held by the [strategy] object of
    the React state, and returns that same array.  The result is the
    strategy object as it is after the render, and the cards shown. *)
Definition render (strategy : Strategy.t) : Strategy.t * list card :=
  let sorted := JsArray.sort by_priority (Strategy.rules strategy) in
  (Strategy.mk (Strategy.id strategy) (Strategy.name strategy) sorted,
   cards_from 0 sorted).

(** [updateRule(index, updated)]: copies the array, stores [updated] at
    [index] and hands the new strategy to [onChange]. *)
Definition updateRule (strategy : Strategy.t) (index : nat)
  (updated : Rule.t) : option Strategy.t :=
  option_map
    (Strategy.mk (Strategy.id strategy) (Strategy.name strategy))
    (JsArray.set (Strategy.rules strategy) index updated).

(** [deleteRule(index)]. *)
Definition deleteRule (strategy : Strategy.t) (index : nat) : Strategy.t :=
  Strategy.mk (Strategy.id strategy) (Strategy.name strategy)
    (JsArray.remove_at (Strategy.rules strategy) index).

End StrategyEditor.

(* ================================================================= *)
(** * App *)

Module App.

(** The five [useState] cells of the component. *)
Record state : Type := mk_state {
  selectedDate : string;
  selectedMarkets : list string;
  strategy : option Strategy.t;
  results : option Results.t;
  running : bool
}.

(** The body [runSimulation] posts to [/api/simulate]:
    [{ date, strategy, market_ids: marketIds }]; [None] is [null]. *)
Record request : Type := mk_request {
  date : string;
  req_strategy : Strategy.t;
  market_ids : option (list string)
}.

(** What the handler can touch: the React state, the requests sent to
    the execution engine and the lines written by [console.error]. *)
Record world : Type := mk_world {
  app : state;
  sent : list request;
  console : list (string * string)
}.

Definition setRunning (b : bool) (w : world) : world :=
  let s := app w in
  mk_world
    (mk_state (selectedDate s) (selectedMarkets s) (strategy s) (results s) b)
    (sent w) (console w).

Definition setResults (data : option Results.t) (w : world) : world :=
  let s := app w in
  mk_world
    (mk_state (selectedDate s) (selectedMarkets s) (strategy s) data
       (running s))
    (sent w) (console w).

Definition console_error (msg err : string) (w : world) : world :=
  mk_world (app w) (sent w) (console w ++ [(msg, err)]).

(** The execution engine, as seen through [fetch] and [r.json()]: it
    answers a request with the parsed response or the call throws. *)
Definition engine : Type := request -> Js.completion Results.t.

(** [runSimulation(date, strategy, marketIds)] of the API module. *)
Definition runSimulation (server : engine) (date : string)
  (strategy : Strategy.t) (marketIds : option (list string)) (w : world)
  : Js.completion Results.t * world :=
  let body := mk_request date strategy marketIds in
  (server body, mk_world (app w) (sent w ++ [body]) (console w)).

(** [handleRun], run to completion. *)
Definition handleRun (server : engine) (w : world) : world :=
  let s := app w in
  match Js.truthy_string (selectedDate s), strategy s with
  | true, Some strat =>
      let w := setRunning true w in
      let marketIds :=
        if Nat.ltb 0 (List.length (selectedMarkets s))
        then Some (selectedMarkets s) else None in
      let (reply, w) := runSimulation server (selectedDate s) strat marketIds w in
      let w :=
        match reply with
        | Js.Returns data => setResults (Some data) w
        | Js.Throws err => console_error "Simulation error:" err w
        end in
      setRunning false w
  | _, _ => w
  end.

(** Rendering the StrategyEditor child.  The component receives the
    [strategy] object held in the state itself, not a copy, so what its
    render does to that object is seen by every later reader of the
    state.  Without a strategy the editor shows its loading panel. *)
Definition render_editor (w : world) : world * list StrategyEditor.card :=
  let s := app w in
  match strategy s with
  | None => (w, [])
  | Some strat =>
      let (strat', cards) := StrategyEditor.render strat in
      (mk_world
         (mk_state (selectedDate s) (selectedMarkets s) (Some strat')
            (results s) (running s))
         (sent w) (console w),
       cards)
  end.

End App.


(* ================================================================= *)
(** * JSON text: JSON.stringify and JSON.parse

    The strategy editor exports the strategy object with
    [JSON.stringify(strategy, null, 2)] and imports a file with
    [JSON.parse].  To these two functions a strategy is any JSON value;
    they are embedded here over the text they write and read.

    A JavaScript string, and the text of a file, is a sequence of UTF-16
    code units.  A number is written and read by the number-to-string and
    string-to-number conversions of the language, which are parameters
    here: [num] stands for the numbers JSON can carry (the finite numbers,
    -0 apart), [print_num] for [Number::toString], [parse_num] for the
    value of a number token ([None] when the token is not a JSON
    number). *)

Module JSON.

Definition text : Type := list N.

(** The code units of an ASCII literal. *)
Definition units (s : string) : text :=
  map N_of_ascii (list_ascii_of_string s).

Fixpoint text_eqb (a b : text) : bool :=
  match a, b with
  | [], [] => true
  | x :: a', y :: b' => (x =? y)%N && text_eqb a' b'
  | _, _ => false
  end.

(** ** Characters *)

(** Space, line feed, carriage return, tab. *)
Definition is_ws (c : N) : bool :=
  ((c =? 32) || (c =? 10) || (c =? 13) || (c =? 9))%N.

Definition is_digit (c : N) : bool := ((48 <=? c) && (c <=? 57))%N.

(** A number token starts with a minus sign or a digit... *)
Definition num_start (c : N) : bool := ((c =? 45)%N || is_digit c).

(** ...and is made of digits, signs, the point and the exponent mark. *)
Definition num_char (c : N) : bool :=
  (is_digit c || (c =? 45) || (c =? 43) || (c =? 46) || (c =? 101)
   || (c =? 69))%N.

(** Leading and trailing surrogates. *)
Definition is_lead (c : N) : bool := ((55296 <=? c) && (c <=? 56319))%N.
Definition is_trail (c : N) : bool := ((56320 <=? c) && (c <=? 57343))%N.

Definition hex_digit (d : N) : N :=
  (if d <? 10 then 48 + d else 87 + d)%N.

Definition hex_value (c : N) : option N :=
  (if is_digit c then Some (c - 48)
   else if (97 <=? c) && (c <=? 102) then Some (c - 87)
   else if (65 <=? c) && (c <=? 70) then Some (c - 55)
   else None)%N.

(** ** Writing a string: QuoteJSONString *)

(** [\uXXXX], in lower-case hexadecimal. *)
Definition unicode_escape (c : N) : text :=
  [92; 117; hex_digit ((c / 4096) mod 16); hex_digit ((c / 256) mod 16);
   hex_digit ((c / 16) mod 16); hex_digit (c mod 16)]%N.

(** A code unit that is not a surrogate: the short escapes for
    backspace, tab, line feed, form feed, carriage return, the quote and
    the backslash; [\u00XX] for the other control characters; the unit
    itself otherwise. *)
Definition escape_unit (c : N) : text :=
  (if c =? 8 then [92; 98]
   else if c =? 9 then [92; 116]
   else if c =? 10 then [92; 110]
   else if c =? 12 then [92; 102]
   else if c =? 13 then [92; 114]
   else if c =? 34 then [92; 34]
   else if c =? 92 then [92; 92]
   else if c <? 32 then unicode_escape c
   else [c])%N.

(** A leading surrogate followed by a trailing one is a code point and
    is written as it is; a surrogate on its own is escaped. *)
Fixpoint quote_body (s : text) : text :=
  match s with
  | [] => []
  | c :: rest =>
      if is_lead c then
        match rest with
        | d :: rest' =>
            if is_trail d then c :: d :: quote_body rest'
            else unicode_escape c ++ quote_body rest
        | [] => unicode_escape c
        end
      else if is_trail c then unicode_escape c ++ quote_body rest
      else escape_unit c ++ quote_body rest
  end.

Definition quote (s : text) : text := 34%N :: quote_body s ++ [34%N].

(** ** Reading a string *)

Definition hex4 (h1 h2 h3 h4 : N) : option N :=
  match hex_value h1, hex_value h2, hex_value h3, hex_value h4 with
  | Some a, Some b, Some c, Some d => Some (((a * 16 + b) * 16 + c) * 16 + d)%N
  | _, _, _, _ => None
  end.

Definition simple_escape (e : N) : option N :=
  (if e =? 34 then Some 34
   else if e =? 92 then Some 92
   else if e =? 47 then Some 47
   else if e =? 98 then Some 8
   else if e =? 102 then Some 12
   else if e =? 110 then Some 10
   else if e =? 114 then Some 13
   else if e =? 116 then Some 9
   else None)%N.

Definition cons_fst (c : N) (r : option (text * text)) : option (text * text) :=
  match r with
  | Some (s, rest) => Some (c :: s, rest)
  | None => None
  end.

(** The characters of a string after its opening quote, up to the
    closing quote; the result is the string and the text after it. *)
Fixpoint string_chars (s : text) : option (text * text) :=
  match s with
  | [] => None
  | c :: rest =>
      if (c =? 34)%N then Some ([], rest)
      else if (c =? 92)%N then
        match rest with
        | [] => None
        | e :: rest1 =>
            if (e =? 117)%N then
              match rest1 with
              | h1 :: h2 :: h3 :: h4 :: rest2 =>
                  match hex4 h1 h2 h3 h4 with
                  | Some u => cons_fst u (string_chars rest2)
                  | None => None
                  end
              | _ => None
              end
            else
              match simple_escape e with
              | Some u => cons_fst u (string_chars rest1)
              | None => None
              end
        end
      else if (c <? 32)%N then None
      else cons_fst c (string_chars rest)
  end.

(** ** Layout *)

Fixpoint skip_ws (s : text) : text :=
  match s with
  | [] => []
  | c :: rest => if is_ws c then skip_ws rest else s
  end.

(** The longest run of number characters at the head of the text. *)
Fixpoint span_num (s : text) : text * text :=
  match s with
  | [] => ([], [])
  | c :: rest =>
      if num_char c
      then let (tok, rest') := span_num rest in (c :: tok, rest')
      else ([], s)
  end.

(** [expect lit s]: the text after the literal [lit]. *)
Fixpoint expect (lit s : text) : option text :=
  match lit, s with
  | [], _ => Some s
  | x :: lit', y :: s' => if (x =? y)%N then expect lit' s' else None
  | _ :: _, [] => None
  end.

Fixpoint join (sep : text) (parts : list text) : text :=
  match parts with
  | [] => []
  | p :: rest =>
      match rest with
      | [] => p
      | _ :: _ => p ++ sep ++ join sep rest
      end
  end.

(** The third argument of [JSON.stringify(strategy, null, 2)]. *)
Definition gap : nat := 2.

Definition spaces (n : nat) : text := repeat 32%N n.

(** The shape of a number token. *)
Definition num_token (t : text) : bool :=
  match t with
  | [] => false
  | c :: rest => num_start c && forallb num_char rest
  end.

(** What may follow a number: the end of the text, or a character that
    cannot continue the token. *)
Definition delimited (rest : text) : bool :=
  match rest with
  | [] => true
  | c :: _ => negb (num_char c)
  end.

Section Values.

Variable num : Type.
Variable print_num : num -> text.
Variable parse_num : text -> option num.

(** ** JSON values *)

Local Set Warnings "-register-all".

(** The properties of an object are listed in the order in which the
    object enumerates them. *)
Inductive value : Type :=
| Null
| Bool (b : bool)
| Num (n : num)
| Str (s : text)
| Arr (items : list value)
| Obj (props : list (text * value)).

(** The number of nodes of a value. *)
Fixpoint size (v : value) : nat :=
  match v with
  | Arr items => S (fold_right (fun x n => S (size x + n)) 0 items)
  | Obj props => S (fold_right (fun kv n => S (size (snd kv) + n)) 0 props)
  | _ => 1
  end.

(** An object has one property per key. *)
Fixpoint no_dup_keys (keys : list text) : bool :=
  match keys with
  | [] => true
  | k :: rest => negb (existsb (text_eqb k) rest) && no_dup_keys rest
  end.

Fixpoint well_formed (v : value) : bool :=
  match v with
  | Arr items => forallb well_formed items
  | Obj props =>
      no_dup_keys (map fst props)
      && forallb (fun kv => well_formed (snd kv)) props
  | _ => true
  end.

(** ** JSON.stringify with a gap: SerializeJSONProperty *)

(** [indent] is the number of spaces of the current indentation. *)
Fixpoint serialize (indent : nat) (v : value) : text :=
  match v with
  | Null => units "null"
  | Bool b => if b then units "true" else units "false"
  | Num n => print_num n
  | Str s => quote s
  | Arr items =>
      match items with
      | [] => units "[]"
      | _ :: _ =>
          let inner := spaces (indent + gap) in
          [91%N] ++ [10%N] ++ inner
          ++ join ([44%N; 10%N] ++ inner)
                  (map (serialize (indent + gap)) items)
          ++ [10%N] ++ spaces indent ++ [93%N]
      end
  | Obj props =>
      match props with
      | [] => units "{}"
      | _ :: _ =>
          let inner := spaces (indent + gap) in
          [123%N] ++ [10%N] ++ inner
          ++ join ([44%N; 10%N] ++ inner)
                  (map (fun kv => quote (fst kv) ++ [58%N; 32%N]
                                  ++ serialize (indent + gap) (snd kv))
                       props)
          ++ [10%N] ++ spaces indent ++ [125%N]
      end
  end.

Definition stringify (v : value) : text := serialize 0 v.

(** ** JSON.parse *)

(** CreateDataProperty on the object being built: a key that is present
    gets the new value, a new key goes last. *)
Fixpoint define (k : text) (v : value) (props : list (text * value))
  : list (text * value) :=
  match props with
  | [] => [(k, v)]
  | (k', v') :: rest =>
      if text_eqb k k' then (k, v) :: rest
      else (k', v') :: define k v rest
  end.

Definition object_of (members : list (text * value)) : list (text * value) :=
  fold_left (fun props kv => define (fst kv) (snd kv) props) members [].

Definition tag (v : value) (r : option text) : option (value * text) :=
  option_map (pair v) r.

(** The parser carries a bound on the number of values it may still
    open; [parse] starts it above the length of the text. *)
Fixpoint parse_value (fuel : nat) (s : text) {struct fuel}
  : option (value * text) :=
  match fuel with
  | O => None
  | S fuel =>
      match skip_ws s with
      | [] => None
      | c :: rest =>
          if num_start c then
            let (tok, rest') := span_num (c :: rest) in
            match parse_num tok with
            | Some n => Some (Num n, rest')
            | None => None
            end
          else if (c =? 34)%N then
            match string_chars rest with
            | Some (str, rest') => Some (Str str, rest')
            | None => None
            end
          else if (c =? 91)%N then
            match skip_ws rest with
            | [] => None
            | c' :: rest' =>
                if (c' =? 93)%N then Some (Arr [], rest')
                else
                  match parse_elements fuel rest with
                  | Some (items, rest'') => Some (Arr items, rest'')
                  | None => None
                  end
            end
          else if (c =? 123)%N then
            match skip_ws rest with
            | [] => None
            | c' :: rest' =>
                if (c' =? 125)%N then Some (Obj [], rest')
                else
                  match parse_members fuel rest with
                  | Some (members, rest'') =>
                      Some (Obj (object_of members), rest'')
                  | None => None
                  end
            end
          else if (c =? 116)%N then tag (Bool true) (expect (units "rue") rest)
          else if (c =? 102)%N then tag (Bool false) (expect (units "alse") rest)
          else if (c =? 110)%N then tag Null (expect (units "ull") rest)
          else None
      end
  end

with parse_elements (fuel : nat) (s : text) {struct fuel}
  : option (list value * text) :=
  match fuel with
  | O => None
  | S fuel =>
      match parse_value fuel s with
      | None => None
      | Some (v, rest) =>
          match skip_ws rest with
          | [] => None
          | c :: rest' =>
              if (c =? 44)%N then
                match parse_elements fuel rest' with
                | Some (vs, rest'') => Some (v :: vs, rest'')
                | None => None
                end
              else if (c =? 93)%N then Some ([v], rest')
              else None
          end
      end
  end

with parse_members (fuel : nat) (s : text) {struct fuel}
  : option (list (text * value) * text) :=
  match fuel with
  | O => None
  | S fuel =>
      match skip_ws s with
      | [] => None
      | q :: rest =>
          if (q =? 34)%N then
            match string_chars rest with
            | None => None
            | Some (k, rest1) =>
                match skip_ws rest1 with
                | [] => None
                | colon :: rest2 =>
                    if (colon =? 58)%N then
                      match parse_value fuel rest2 with
                      | None => None
                      | Some (v, rest3) =>
                          match skip_ws rest3 with
                          | [] => None
                          | c :: rest4 =>
                              if (c =? 44)%N then
                                match parse_members fuel rest4 with
                                | Some (ms, rest5) => Some ((k, v) :: ms, rest5)
                                | None => None
                                end
                              else if (c =? 125)%N then Some ([(k, v)], rest4)
                              else None
                          end
                      end
                    else None
                end
            end
          else None
      end
  end.

(** [JSON.parse(text)]: one value, with nothing but white space after
    it; [None] is the SyntaxError. *)
Definition parse (s : text) : option value :=
  match parse_value (S (List.length s)) s with
  | Some (v, rest) =>
      match skip_ws rest with
      | [] => Some v
      | _ :: _ => None
      end
  | None => None
  end.

(** ** The editor's export and import *)

(** What the import can change: the strategy of the editor and the
    alerts shown to the operator. *)
Record editor : Type := mk_editor {
  strategy : value;
  alerts : list string
}.

(** [exportJSON]: the content of the file offered for download.  (Its
    name, taken from the strategy's [id], is not modelled.) *)
Definition exportJSON (e : editor) : text := stringify (strategy e).

(** [importJSON], once a file is chosen and read: [file] is the text of
    the file, or [None] when the dialog is closed without a file. *)
Definition importJSON (file : option text) (e : editor) : editor :=
  match file with
  | None => e
  | Some content =>
      match parse content with
      | Some data => mk_editor data (alerts e)
      | None => mk_editor (strategy e) (alerts e ++ ["Invalid JSON file"])
      end
  end.

End Values.

Arguments Null {num}.
Arguments Bool {num} b.
Arguments Str {num} s.
Arguments Arr {num} items.
Arguments Obj {num} props.
Arguments Num {num} n.
Arguments size {num} v.
Arguments well_formed {num} v.
Arguments serialize {num} print_num indent v.
Arguments stringify {num} print_num v.
Arguments define {num} k v props.
Arguments object_of {num} members.
Arguments tag {num} v r.
Arguments parse_value {num} parse_num fuel s.
Arguments parse_elements {num} parse_num fuel s.
Arguments parse_members {num} parse_num fuel s.
Arguments parse {num} parse_num s.
Arguments mk_editor {num} strategy alerts.
Arguments strategy {num} e.
Arguments alerts {num} e.
Arguments exportJSON {num} print_num e.
Arguments importJSON {num} parse_num file e.

End JSON.

(* ================================================================= *)
(** * Integers in decimal

    The integers, written in decimal, are numbers JSON can carry. *)

Module IntegerText.

Fixpoint digits (d : Decimal.uint) : JSON.text :=
  match d with
  | Decimal.Nil => []
  | Decimal.D0 d => 48%N :: digits d
  | Decimal.D1 d => 49%N :: digits d
  | Decimal.D2 d => 50%N :: digits d
  | Decimal.D3 d => 51%N :: digits d
  | Decimal.D4 d => 52%N :: digits d
  | Decimal.D5 d => 53%N :: digits d
  | Decimal.D6 d => 54%N :: digits d
  | Decimal.D7 d => 55%N :: digits d
  | Decimal.D8 d => 56%N :: digits d
  | Decimal.D9 d => 57%N :: digits d
  end.

Definition print (z : Z) : JSON.text :=
  match Z.to_int z with
  | Decimal.Pos d => digits d
  | Decimal.Neg d => 45%N :: digits d
  end.

Definition digit (c : N) (d : Decimal.uint) : option Decimal.uint :=
  (if c =? 48 then Some (Decimal.D0 d)
   else if c =? 49 then Some (Decimal.D1 d)
   else if c =? 50 then Some (Decimal.D2 d)
   else if c =? 51 then Some (Decimal.D3 d)
   else if c =? 52 then Some (Decimal.D4 d)
   else if c =? 53 then Some (Decimal.D5 d)
   else if c =? 54 then Some (Decimal.D6 d)
   else if c =? 55 then Some (Decimal.D7 d)
   else if c =? 56 then Some (Decimal.D8 d)
   else if c =? 57 then Some (Decimal.D9 d)
   else None)%N.

Fixpoint read_digits (s : JSON.text) : option Decimal.uint :=
  match s with
  | [] => Some Decimal.Nil
  | c :: rest =>
      match read_digits rest with
      | Some d => digit c d
      | None => None
      end
  end.

Definition parse (tok : JSON.text) : option Z :=
  match tok with
  | [] => None
  | c :: rest =>
      if (c =? 45)%N then
        match rest with
        | [] => None
        | _ :: _ =>
            option_map (fun d => Z.of_int (Decimal.Neg d)) (read_digits rest)
        end
      else option_map (fun d => Z.of_int (Decimal.Pos d)) (read_digits tok)
  end.

(** A strategy as the editor holds it, with numbers that are integers,
    one property the editor does not know ([notes]) and a name that
    needs escaping. *)
Definition strategy : JSON.value Z :=
  JSON.Obj
    [ (JSON.units "id", JSON.Str (JSON.units "S1"));
      (JSON.units "name",
       JSON.Str (JSON.units "Lay the fav" ++ [34; 9; 233; 55357; 56832; 56832]%N));
      (JSON.units "rules",
       JSON.Arr
         [ JSON.Obj
             [ (JSON.units "id", JSON.Str (JSON.units "RULE_1"));
               (JSON.units "priority", JSON.Num 1%Z);
               (JSON.units "conditions",
                JSON.Arr
                  [ JSON.Obj
                      [ (JSON.units "field", JSON.Str (JSON.units "fav_lay_odds"));
                        (JSON.units "operator", JSON.Str (JSON.units "lt"));
                        (JSON.units "value", JSON.Num 2%Z);
                        (JSON.units "value_high", JSON.Null) ] ]);
               (JSON.units "actions",
                JSON.Arr
                  [ JSON.Obj
                      [ (JSON.units "target", JSON.Str (JSON.units "favourite"));
                        (JSON.units "bet_type", JSON.Str (JSON.units "LAY"));
                        (JSON.units "stake", JSON.Num (-1)%Z) ] ]);
               (JSON.units "stop_on_match", JSON.Bool true) ];
           JSON.Obj [] ]);
      (JSON.units "notes", JSON.Arr []) ].

End IntegerText.

(* ================================================================= *)
(** * The quantities the specification names *)

Module Spec.

(** [sum(profit[0..i])]: the profits of a list of outcomes added from
    the left, starting from zero. *)
Definition sum_profit (outcomes : list BetOutcome.t) : float :=
  fold_left ResultsPanel.step outcomes 0%float.

(** [running_pnl[i-1]], with [running_pnl[-1] = 0]. *)
Definition running_before (running_pnl : list float) (i : nat) : float :=
  match i with
  | O => 0%float
  | S j => nth j running_pnl 0%float
  end.

(** An outcome in which a required numeric field is absent: the key is
    missing or holds [null]. *)
Definition malformed (o : BetOutcome.t) : bool :=
  match BetOutcome.profit o, BetOutcome.stake o, BetOutcome.liability o with
  | Js.Number _, Js.Number _, Js.Number _ => false
  | _, _, _ => true
  end.

Definition MalformedOutcome : string := "MalformedOutcome".

(** [win_rate = win_count / (win_count + loss_count)] if the denominator
    is positive, else 0. *)
Definition win_rate (win_count loss_count : float) : float :=
  if (0 <? win_count + loss_count)%float
  then (win_count / (win_count + loss_count))%float
  else 0%float.

(** Ascending priority. *)
Definition priority_le (a b : Rule.t) : Prop :=
  (Rule.priority a <= Rule.priority b)%Z.

(** The rules of one priority, in list order. *)
Definition with_priority (p : Z) (rules : list Rule.t) : list Rule.t :=
  filter (fun r => Z.eqb (Rule.priority r) p) rules.

End Spec.

(* ================================================================= *)
(** * Sample data *)

Module Sample.

Definition outcome (market rule : string) (stake liability profit : Js.field)
  : BetOutcome.t :=
  BetOutcome.mk market rule "Runner" "LAY" (Js.Number 2%float)
    stake liability "LOST" profit.

(** The outcomes [+5, -3, +5] of the specification's example. *)
Definition three_outcomes : list BetOutcome.t :=
  [ outcome "1.101" "RULE_1" (Js.Number 1%float) (Js.Number 1%float) (Js.Number 5%float);
    outcome "1.102" "RULE_1" (Js.Number 3%float) (Js.Number 3%float) (Js.Number (-3)%float);
    outcome "1.103" "RULE_2" (Js.Number 1%float) (Js.Number 1%float) (Js.Number 5%float) ].

(** A settled bet whose [profit], [stake] and [liability] keys are
    missing, between two complete ones. *)
Definition with_gap : list BetOutcome.t :=
  [ outcome "1.101" "RULE_1" (Js.Number 1%float) (Js.Number 1%float) (Js.Number 5%float);
    outcome "1.102" "RULE_1" Js.Absent Js.Absent Js.Absent;
    outcome "1.103" "RULE_2" (Js.Number 1%float) (Js.Number 1%float) (Js.Number 5%float) ].

Definition summary : Summary.t :=
  Summary.mk (Js.Number 7%float) (Js.Number 2%float) (Js.Number 1%float) (Js.Number 140%float)
    (Js.Number 5%float) (Js.Number 5%float) (Js.Number 5%float) (Js.Number (-3)%float).

Definition evaluations : list Evaluation.t :=
  [ Evaluation.mk "1.101" (Some "Ascot") (Some "2m Hcap");
    Evaluation.mk "1.103" (Some "York") None ].

(** The same with [null] in the three fields of the second bet. *)
Definition with_null : list BetOutcome.t :=
  [ outcome "1.101" "RULE_1" (Js.Number 1%float) (Js.Number 1%float)
      (Js.Number 5%float);
    outcome "1.102" "RULE_1" Js.Null Js.Null Js.Null;
    outcome "1.103" "RULE_2" (Js.Number 1%float) (Js.Number 1%float)
      (Js.Number 5%float) ].

Definition results (bet_outcomes : list BetOutcome.t) : Results.t :=
  Results.mk "Default" (Js.Number 3%float) (Js.Number 3%float) (Js.Number 3%float)
    (Some bet_outcomes) (Some evaluations) (Some summary).

Definition action : Action.t := Action.mk "favourite" "LAY" 1%float.

Definition rule (id : string) (priority : Z) : Rule.t :=
  Rule.mk id id priority
    [Condition.mk "fav_lay_odds" "lt" 2%float None]
    [action] true.

(** A strategy stored with its rules out of priority order, two of them
    with the same priority. *)
Definition strategy : Strategy.t :=
  Strategy.mk "S1" "Sample"
    [rule "C" 2; rule "A" 1; rule "D" 2; rule "B" 1].

Definition state (selectedDate : string) (selectedMarkets : list string)
  (strat : option Strategy.t) : App.state :=
  App.mk_state selectedDate selectedMarkets strat None false.

Definition world (s : App.state) : App.world := App.mk_world s [] [].

(** An engine whose call always fails, and one that always answers. *)
Definition failing : App.engine := fun _ => Js.Throws "NetworkError".

Definition answering : App.engine :=
  fun _ => Js.Returns (results three_outcomes).

End Sample.

(* ================================================================= *)
(** * RaceSelector *)

From Stdlib Require Import DecimalString DecimalN.

Module RaceSelector.

Record market : Type := mk_market {
  market_id : string;
  market_name : string;
  market_start_time : string;
  runner_count : option float
}.

(** A venue of the market listing: its name ([venue.venue]) and its
    markets. *)
Record venue : Type := mk_venue {
  name : string;
  markets : list market
}.

(** [venues.flatMap(v => v.markets.map(m => m.market_id))]. *)
Definition allMarketIds (venues : list venue) : list string :=
  flat_map (fun v => map market_id (markets v)) venues.

(** [selectedMarkets.includes(id)]. *)
Definition includes (selectedMarkets : list string) (id : string) : bool :=
  existsb (String.eqb id) selectedMarkets.

(** [toggleMarket(id)]: the selection handed to [onSelectedChange]. *)
Definition toggleMarket (selectedMarkets : list string) (id : string)
  : list string :=
  if includes selectedMarkets id
  then filter (fun m => negb (String.eqb m id)) selectedMarkets
  else selectedMarkets ++ [id].

Definition selectAll (venues : list venue) : list string :=
  allMarketIds venues.

Definition selectNone : list string := [].

(** The two numbers of "N of M selected". *)
Definition counter (selectedMarkets : list string) (venues : list venue)
  : nat * nat :=
  (List.length selectedMarkets, List.length (allMarketIds venues)).

End RaceSelector.

(* ================================================================= *)
(** * App: markets loaded *)

Module Loading.

(** The market listing of a date; [venues] may be absent. *)
Record markets_data : Type := mk_data {
  venues : option (list RaceSelector.venue);
  total_markets : option float;
  snapshot_count : option float
}.

(** [onMarketsLoaded(date, data)]: the date is taken over, every market
    of [data.venues || []] is selected and the results are cleared. *)
Definition onMarketsLoaded (date : string) (data : markets_data)
  (w : App.world) : App.world :=
  let s := App.app w in
  let allIds :=
    RaceSelector.allMarketIds
      (match venues data with
       | Some vs => vs
       | None => []
       end) in
  App.mk_world
    (App.mk_state date allIds (App.strategy s) None (App.running s))
    (App.sent w) (App.console w).

End Loading.

(* ================================================================= *)
(** * ConditionRow *)

Module ConditionRow.

(** The four controls of a row call [update] with a fixed key; the two
    number boxes always hand it a number. *)
Inductive edit : Type :=
| field (val : string)
| operator (val : string)
| value (val : float)
| value_high (val : float).

(** [update(key, val)]: [onChange({ ...condition, [key]: val })]. *)
Definition update (condition : Condition.t) (e : edit) : Condition.t :=
  match e with
  | field val =>
      Condition.mk val (Condition.operator condition)
        (Condition.value condition) (Condition.value_high condition)
  | operator val =>
      Condition.mk (Condition.field condition) val
        (Condition.value condition) (Condition.value_high condition)
  | value val =>
      Condition.mk (Condition.field condition) (Condition.operator condition)
        val (Condition.value_high condition)
  | value_high val =>
      Condition.mk (Condition.field condition) (Condition.operator condition)
        (Condition.value condition) (Some val)
  end.

(** [update('value', parseFloat(e.target.value) || 0)]. *)
Definition value_onChange (condition : Condition.t) (parsed : float)
  : Condition.t :=
  update condition (value (Js.or_else parsed 0%float)).

(** [update('value_high', parseFloat(e.target.value) || 0)]. *)
Definition value_high_onChange (condition : Condition.t) (parsed : float)
  : Condition.t :=
  update condition (value_high (Js.or_else parsed 0%float)).

(** The second box is there for [between] only:
    [condition.operator === 'between']. *)
Definition shows_value_high (condition : Condition.t) : bool :=
  String.eqb (Condition.operator condition) "between".

(** What the second box shows, [condition.value_high || '']: [None] is
    the empty text. *)
Definition value_high_box (condition : Condition.t) : option float :=
  match Condition.value_high condition with
  | Some h => if Js.truthy h then Some h else None
  | None => None
  end.

End ConditionRow.

(* ================================================================= *)
(** * RuleCard *)

Module RuleCard.

Inductive edit : Type :=
| name (val : string)
| priority (val : Z)
| stop_on_match (val : bool)
| conditions (val : list Condition.t)
| actions (val : list Action.t).

(** [update(key, val)]: [onChange({ ...rule, [key]: val })]. *)
Definition update (rule : Rule.t) (e : edit) : Rule.t :=
  match e with
  | name val =>
      Rule.mk (Rule.id rule) val (Rule.priority rule) (Rule.conditions rule)
        (Rule.actions rule) (Rule.stop_on_match rule)
  | priority val =>
      Rule.mk (Rule.id rule) (Rule.name rule) val (Rule.conditions rule)
        (Rule.actions rule) (Rule.stop_on_match rule)
  | stop_on_match val =>
      Rule.mk (Rule.id rule) (Rule.name rule) (Rule.priority rule)
        (Rule.conditions rule) (Rule.actions rule) val
  | conditions val =>
      Rule.mk (Rule.id rule) (Rule.name rule) (Rule.priority rule) val
        (Rule.actions rule) (Rule.stop_on_match rule)
  | actions val =>
      Rule.mk (Rule.id rule) (Rule.name rule) (Rule.priority rule)
        (Rule.conditions rule) val (Rule.stop_on_match rule)
  end.

(** The condition and the action a new row starts from. *)
Definition new_condition : Condition.t :=
  Condition.mk "fav_lay_odds" "lt" 2%float None.

Definition new_action : Action.t := Action.mk "favourite" "LAY" 1%float.

(** [updateCondition(index, updated)], for the index of a row shown. *)
Definition updateCondition (rule : Rule.t) (index : nat)
  (updated : Condition.t) : option Rule.t :=
  option_map (fun cs => update rule (conditions cs))
    (JsArray.set (Rule.conditions rule) index updated).

Definition deleteCondition (rule : Rule.t) (index : nat) : Rule.t :=
  update rule (conditions (JsArray.remove_at (Rule.conditions rule) index)).

Definition addCondition (rule : Rule.t) : Rule.t :=
  update rule (conditions (Rule.conditions rule ++ [new_condition])).

Definition updateAction (rule : Rule.t) (index : nat) (updated : Action.t)
  : option Rule.t :=
  option_map (fun acts => update rule (actions acts))
    (JsArray.set (Rule.actions rule) index updated).

Definition deleteAction (rule : Rule.t) (index : nat) : Rule.t :=
  update rule (actions (JsArray.remove_at (Rule.actions rule) index)).

Definition addAction (rule : Rule.t) : Rule.t :=
  update rule (actions (Rule.actions rule ++ [new_action])).

(** The priority box: [update('priority', parseInt(e.target.value) || 1)].
    [parsed] is the value of [parseInt(e.target.value)]: the integer the
    text starts with, or [None] (NaN) when there is none. *)
Definition priority_onChange (rule : Rule.t) (parsed : option Z) : Rule.t :=
  update rule
    (priority
       (match parsed with
        | Some z => if (z =? 0)%Z then 1%Z else z
        | None => 1%Z
        end)).

End RuleCard.

(* ================================================================= *)
(** * The editor as a whole *)

Module Editor.

(** [`RULE_${Date.now()}`]: [now] is the clock, in milliseconds. *)
Definition rule_id (now : N) : string :=
  "RULE_" ++ NilEmpty.string_of_uint (N.to_uint now).

(** [addRule], at the time [now]. *)
Definition addRule (now : N) (strategy : Strategy.t) : Strategy.t :=
  Strategy.mk (Strategy.id strategy) (Strategy.name strategy)
    (Strategy.rules strategy
     ++ [Rule.mk (rule_id now) "New Rule"
           (Z.of_nat (List.length (Strategy.rules strategy)) + 1)%Z
           [RuleCard.new_condition] [RuleCard.new_action] true]).

(** The strategy name box: [onChange({ ...strategy, name })]. *)
Definition rename (strategy : Strategy.t) (val : string) : Strategy.t :=
  Strategy.mk (Strategy.id strategy) val (Strategy.rules strategy).

(** What the operator can do to a condition row, an action row, a rule
    card and the editor.  An event on a row or a card names it by its
    position on the page. *)
Inductive condition_event : Type :=
| choose_field (val : string)
| choose_operator (val : string)
| type_value (parsed : float)
| type_value_high (parsed : float).

Inductive action_event : Type :=
| choose_bet_type (val : string)
| choose_target (val : string)
| type_stake (parsed : float).

Inductive rule_event : Type :=
| type_name (val : string)
| type_priority (parsed : option Z)
| check_stop (val : bool)
| on_condition (index : nat) (e : condition_event)
| delete_condition (index : nat)
| add_condition
| on_action (index : nat) (e : action_event)
| delete_action (index : nat)
| add_action.

Inductive event : Type :=
| type_strategy_name (val : string)
| on_rule (index : nat) (e : rule_event)
| delete_rule (index : nat)
| add_rule (now : N).

(** The handlers of a ConditionRow and of an ActionRow. *)
Definition on_condition_row (c : Condition.t) (e : condition_event)
  : Condition.t :=
  match e with
  | choose_field val => ConditionRow.update c (ConditionRow.field val)
  | choose_operator val => ConditionRow.update c (ConditionRow.operator val)
  | type_value parsed => ConditionRow.value_onChange c parsed
  | type_value_high parsed => ConditionRow.value_high_onChange c parsed
  end.

Definition on_action_row (a : Action.t) (e : action_event) : Action.t :=
  match e with
  | choose_bet_type val => ActionRow.update a (ActionRow.bet_type val)
  | choose_target val => ActionRow.update a (ActionRow.target val)
  | type_stake parsed => ActionRow.stake_onChange a parsed
  end.

(** The handlers of a RuleCard: the rule it hands to its [onChange].  A
    row event reaches the row at that position, which calls the card's
    [updateCondition] or [updateAction] with its own index; there is no
    event on a row that is not shown. *)
Definition on_rule_card (rule : Rule.t) (e : rule_event) : option Rule.t :=
  match e with
  | type_name val => Some (RuleCard.update rule (RuleCard.name val))
  | type_priority parsed => Some (RuleCard.priority_onChange rule parsed)
  | check_stop val => Some (RuleCard.update rule (RuleCard.stop_on_match val))
  | on_condition index ce =>
      match nth_error (Rule.conditions rule) index with
      | Some c =>
          RuleCard.updateCondition rule index (on_condition_row c ce)
      | None => None
      end
  | delete_condition index =>
      match nth_error (Rule.conditions rule) index with
      | Some _ => Some (RuleCard.deleteCondition rule index)
      | None => None
      end
  | add_condition => Some (RuleCard.addCondition rule)
  | on_action index ae =>
      match nth_error (Rule.actions rule) index with
      | Some a => RuleCard.updateAction rule index (on_action_row a ae)
      | None => None
      end
  | delete_action index =>
      match nth_error (Rule.actions rule) index with
      | Some _ => Some (RuleCard.deleteAction rule index)
      | None => None
      end
  | add_action => Some (RuleCard.addAction rule)
  end.

(** One step of the editor: it is rendered, which sorts the stored rules
    in place, and then the operator does something to what is shown; the
    result is the strategy handed to [onChange], [None] when the event
    names a card or a row that is not on the page. *)
Definition handle (strategy : Strategy.t) (ev : event) : option Strategy.t :=
  let (shown, cards) := StrategyEditor.render strategy in
  match ev with
  | type_strategy_name val => Some (rename shown val)
  | on_rule index e =>
      match nth_error cards index with
      | Some c =>
          match on_rule_card (StrategyEditor.rule c) e with
          | Some updated =>
              StrategyEditor.updateRule shown (StrategyEditor.index c) updated
          | None => None
          end
      | None => None
      end
  | delete_rule index =>
      match nth_error cards index with
      | Some c => Some (StrategyEditor.deleteRule shown (StrategyEditor.index c))
      | None => None
      end
  | add_rule now => Some (addRule now shown)
  end.

(** ** Numbers a strategy can be exported with *)

Definition condition_ok (c : Condition.t) : bool :=
  negb (is_nan (Condition.value c))
  && match Condition.value_high c with
     | Some h => negb (is_nan h)
     | None => true
     end.

Definition action_ok (a : Action.t) : bool := negb (is_nan (Action.stake a)).

Definition rule_ok (r : Rule.t) : bool :=
  forallb condition_ok (Rule.conditions r)
  && forallb action_ok (Rule.actions r).

(** No number of the strategy is NaN. *)
Definition numbers_ok (s : Strategy.t) : bool :=
  forallb rule_ok (Strategy.rules s).

End Editor.

(* ================================================================= *)
(** * More of what the specification names *)

Module Shape.

(** The six figures of a summary that the bar formats with [toFixed] are
    all numbers. *)
Definition complete (s : Summary.t) : bool :=
  match Summary.total_pnl s, Summary.roi_percent s, Summary.total_stake s,
        Summary.total_liability s, Summary.avg_win s, Summary.avg_loss s with
  | Js.Number _, Js.Number _, Js.Number _, Js.Number _, Js.Number _,
    Js.Number _ => true
  | _, _, _, _, _, _ => false
  end.

(** The request a run sends: the date, the strategy, and the selection
    or [null]. *)
Definition request_of (s : App.state) (strat : Strategy.t) : App.request :=
  App.mk_request (App.selectedDate s) strat
    (match App.selectedMarkets s with
     | [] => None
     | _ :: _ => Some (App.selectedMarkets s)
     end).

End Shape.

(* ================================================================= *)
(** * Facts about binary64 arithmetic *)

Module FloatFacts.

Lemma SFcompare_refl (f : spec_float) :
  f <> S754_nan -> SFcompare f f = Some Eq.
Proof.
  destruct f as [s | s | | s m e]; simpl; intros H; try congruence.
  - destruct s; reflexivity.
  - rewrite Z.compare_refl.
    change (Pos.compare_cont Eq m m) with (Pos.compare m m).
    rewrite Pos.compare_refl. destruct s; reflexivity.
Qed.

Lemma is_nan_spec (x : float) :
  is_nan x = true <-> Prim2SF x = S754_nan.
Proof.
  unfold is_nan. rewrite eqb_spec. unfold SFeqb. split.
  - intros H. destruct (Prim2SF x) eqn:E; try reflexivity;
      rewrite SFcompare_refl in H by discriminate; discriminate.
  - intros ->. reflexivity.
Qed.

Lemma add_nan_l (x y : float) :
  is_nan x = true -> is_nan (x + y) = true.
Proof.
  rewrite !is_nan_spec, add_spec. intros ->. reflexivity.
Qed.

Lemma add_nan_r (x y : float) :
  is_nan y = true -> is_nan (x + y) = true.
Proof.
  rewrite !is_nan_spec, add_spec. intros ->.
  destruct (Prim2SF x); reflexivity.
Qed.

Lemma is_zero_spec (x : float) :
  is_zero x = true -> exists s, Prim2SF x = S754_zero s.
Proof.
  unfold is_zero. rewrite eqb_spec. unfold SFeqb.
  change (Prim2SF zero) with (S754_zero false).
  destruct (Prim2SF x) as [s | s | | s m e]; simpl;
    try discriminate; eauto; destruct s; discriminate.
Qed.

(** A falsy number is not above zero. *)
Lemma falsy_not_positive (x : float) :
  Js.truthy x = false -> (0 <? x)%float = false.
Proof.
  unfold Js.truthy. rewrite negb_false_iff, orb_true_iff.
  rewrite ltb_spec. change (Prim2SF 0) with (S754_zero false).
  intros [H | H].
  - apply is_nan_spec in H. rewrite H. reflexivity.
  - apply is_zero_spec in H. destruct H as [s ->]. reflexivity.
Qed.

Lemma truthy_not_nan (x : float) :
  Js.truthy x = true -> is_nan x = false.
Proof.
  unfold Js.truthy. rewrite negb_true_iff, orb_false_iff. tauto.
Qed.

End FloatFacts.

(* ================================================================= *)
(** * Running P&L (ResultsPanel) *)

Module RunningFacts.

Import ResultsPanel.

Lemma running_from_length (os : list BetOutcome.t) :
  forall acc, List.length (running_from acc os) = List.length os.
Proof.
  induction os as [| o os IH]; intros acc; simpl.
  - reflexivity.
  - now rewrite IH.
Qed.

Lemma running_from_fst (os : list BetOutcome.t) :
  forall acc, map fst (running_from acc os) = os.
Proof.
  induction os as [| o os IH]; intros acc; simpl.
  - reflexivity.
  - now rewrite IH.
Qed.

(** Entry [i] carries the fold of [step] over the first [i+1] outcomes. *)
Lemma running_from_nth (os : list BetOutcome.t) :
  forall acc i,
    nth_error (running_from acc os) i =
    option_map (fun o => (o, fold_left step (firstn (S i) os) acc))
               (nth_error os i).
Proof.
  induction os as [| o os IH]; intros acc i.
  - destruct i; reflexivity.
  - destruct i as [| i].
    + reflexivity.
    + simpl nth_error. rewrite IH. reflexivity.
Qed.

Lemma fold_step_snoc (os : list BetOutcome.t) (o : BetOutcome.t) (acc : float) :
  fold_left step (os ++ [o]) acc = step (fold_left step os acc) o.
Proof. now rewrite fold_left_app. Qed.

Lemma firstn_S_snoc (A : Type) (l : list A) :
  forall i x, nth_error l i = Some x -> firstn (S i) l = firstn i l ++ [x].
Proof.
  induction l as [| y l IH]; intros [| i] x H; simpl in *; try discriminate.
  - now inversion H.
  - f_equal. now apply IH.
Qed.

Lemma nth_running (os : list BetOutcome.t) (j : nat) (o : BetOutcome.t) :
  nth_error os j = Some o ->
  nth j (map snd (outcomesWithRunning os)) 0%float =
  Spec.sum_profit (firstn (S j) os).
Proof.
  intros H. unfold outcomesWithRunning, Spec.sum_profit.
  apply nth_error_nth. rewrite nth_error_map, running_from_nth, H.
  reflexivity.
Qed.

(** Once the accumulator is NaN it stays NaN. *)
Lemma fold_step_nan (os : list BetOutcome.t) :
  forall acc, is_nan acc = true -> is_nan (fold_left step os acc) = true.
Proof.
  induction os as [| o os IH]; intros acc H; simpl.
  - exact H.
  - apply IH. unfold step. now apply FloatFacts.add_nan_l.
Qed.

Lemma firstn_split_at (A : Type) (l : list A) :
  forall i j x, nth_error l i = Some x -> i <= j ->
    exists tl, firstn (S j) l = firstn i l ++ x :: tl.
Proof.
  induction l as [| y l IH]; intros [| i] j x H Hij; simpl in *;
    try discriminate.
  - inversion H; subst. eauto.
  - destruct j as [| j]; [lia |].
    destruct (IH i j x H ltac:(lia)) as [tl E].
    exists tl. simpl in E. simpl. now rewrite E.
Qed.

Lemma running_before_sum (os : list BetOutcome.t) (i : nat) :
  i <= List.length os ->
  Spec.running_before (map snd (outcomesWithRunning os)) i =
  Spec.sum_profit (firstn i os).
Proof.
  destruct i as [| j]; intros H; [reflexivity |].
  destruct (nth_error os j) as [oj |] eqn:Ej.
  - simpl. now apply nth_running with (o := oj).
  - apply nth_error_None in Ej. lia.
Qed.

End RunningFacts.

(** C1. For every list of bet outcomes the running P&L has one
    (outcome, running_pnl) pair per outcome, in the order of the input:
    entry [i] is the [i]-th outcome together with the sum of the profits
    of outcomes [0..i], which is the running P&L of the entry before it
    (zero before the first) plus the profit of outcome [i]. *)
Theorem C1_running_pnl_prefix_sums (bet_outcomes : list BetOutcome.t) :
  let out := ResultsPanel.outcomesWithRunning bet_outcomes in
  List.length out = List.length bet_outcomes /\
  map fst out = bet_outcomes /\
  (forall i,
     nth_error out i =
     option_map
       (fun o => (o, Spec.sum_profit (firstn (S i) bet_outcomes)))
       (nth_error bet_outcomes i)) /\
  (forall i,
     nth_error out i =
     option_map
       (fun o => (o, (Spec.running_before (map snd out) i
                      + Js.ToNumber (BetOutcome.profit o))%float))
       (nth_error bet_outcomes i)).
Proof.
  intros out. subst out.
  split; [apply RunningFacts.running_from_length |].
  split; [apply RunningFacts.running_from_fst |].
  split; [intros i; apply RunningFacts.running_from_nth |].
  intros i. unfold ResultsPanel.outcomesWithRunning at 1.
  rewrite RunningFacts.running_from_nth.
  destruct (nth_error bet_outcomes i) as [o |] eqn:E; [| reflexivity].
  cbn [option_map]. f_equal. f_equal.
  rewrite RunningFacts.running_before_sum.
  - rewrite (RunningFacts.firstn_S_snoc _ _ _ _ E).
    now rewrite RunningFacts.fold_step_snoc.
  - apply Nat.lt_le_incl, nth_error_Some. congruence.
Qed.

(** The specification's example: profits [+5, -3, +5] give the running
    P&L [5, 2, 7]. *)
Example running_pnl_example :
  map snd (ResultsPanel.outcomesWithRunning Sample.three_outcomes)
  = [5; 2; 7]%float.
Proof. reflexivity. Qed.

(* ================================================================= *)
(** * Outcomes with absent fields (ResultsPanel) *)

Module RowFacts.

Import ResultsPanel.

(** With both lists in the response, the panel is the summary bar and
    the table. *)
Lemma panel_of_bar (r : Results.t) (os : list BetOutcome.t)
  (evs : list Evaluation.t) (bar : option (list SummaryBar.stat)) :
  Results.bet_outcomes r = Some os ->
  Results.evaluations r = Some evs ->
  SummaryBar.SummaryBar (Results.summary r) = Js.Returns bar ->
  ResultsPanel (Some r) =
  Js.Returns
    (report (Results.strategy_name r) bar
       [Js.shown (Results.markets_evaluated r);
        Js.shown (Results.markets_with_bets r);
        Js.shown (Results.bets_placed r)]
       (if Nat.eqb (List.length os) 0 then no_bets
        else table (map (render_row evs) (outcomesWithRunning os)))).
Proof.
  intros Ho He Hb. unfold ResultsPanel, table_body. rewrite Ho, He.
  destruct (Nat.eqb (List.length os) 0); cbn; now rewrite Hb.
Qed.

(** The only thing the summary bar throws is a TypeError. *)
Lemma SummaryBar_throws (s : option Summary.t) (e : string) :
  SummaryBar.SummaryBar s = Js.Throws e -> e = Js.TypeError.
Proof.
  destruct s as [s |]; [| discriminate]. unfold SummaryBar.SummaryBar.
  destruct s as [pnl w l roi st li aw al]; cbn [Summary.total_pnl
    Summary.roi_percent Summary.total_stake Summary.total_liability
    Summary.avg_win Summary.avg_loss].
  destruct pnl, roi, st, li, aw, al; cbn; intros H;
    solve [discriminate | now inversion H].
Qed.

Lemma table_body_throws (os : list BetOutcome.t)
  (evs : option (list Evaluation.t)) (e : string) :
  table_body os evs = Js.Throws e -> e = Js.TypeError.
Proof.
  unfold table_body. destruct (Nat.eqb (List.length os) 0); [discriminate |].
  destruct evs; [discriminate |]. intros H. now inversion H.
Qed.

Lemma ResultsPanel_throws (r : option Results.t) (e : string) :
  ResultsPanel r = Js.Throws e -> e = Js.TypeError.
Proof.
  destruct r as [r |]; [| discriminate]. unfold ResultsPanel.
  destruct (Results.bet_outcomes r) as [os |];
    [| intros H; now inversion H].
  destruct (table_body os (Results.evaluations r)) eqn:Et; cbn.
  - destruct (SummaryBar.SummaryBar (Results.summary r)) eqn:E; cbn.
    + discriminate.
    + intros H. inversion H; subst. now apply SummaryBar_throws in E.
  - intros H. inversion H; subst. now apply table_body_throws in Et.
Qed.

(** Entry [i] is the entry before it plus the profit of outcome [i]. *)
Lemma running_recurrence (os : list BetOutcome.t) (i : nat)
  (o : BetOutcome.t) :
  nth_error os i = Some o ->
  nth_error (outcomesWithRunning os) i
  = Some (o, (Spec.running_before (map snd (outcomesWithRunning os)) i
              + Js.ToNumber (BetOutcome.profit o))%float).
Proof.
  intros E. unfold outcomesWithRunning at 1.
  rewrite RunningFacts.running_from_nth, E. cbn [option_map].
  f_equal. f_equal. rewrite RunningFacts.running_before_sum.
  - rewrite (RunningFacts.firstn_S_snoc _ _ _ _ E).
    now rewrite RunningFacts.fold_step_snoc.
  - apply Nat.lt_le_incl, nth_error_Some. congruence.
Qed.

(** From the first outcome without a profit key on, the running P&L is
    NaN. *)
Lemma running_nan_after (os : list BetOutcome.t) (i j : nat)
  (o : BetOutcome.t) (p : BetOutcome.t * float) :
  nth_error os i = Some o -> BetOutcome.profit o = Js.Absent -> i <= j ->
  nth_error (outcomesWithRunning os) j = Some p ->
  is_nan (snd p) = true.
Proof.
  intros Hi Hp Hij Hj. unfold outcomesWithRunning in Hj.
  rewrite RunningFacts.running_from_nth in Hj.
  destruct (nth_error os j) as [oj |]; [| discriminate].
  destruct (RunningFacts.firstn_split_at _ os i j o Hi Hij) as [tl E].
  rewrite E in Hj. cbn [option_map] in Hj. injection Hj as <-. cbn [snd].
  rewrite fold_left_app. cbn [fold_left].
  apply RunningFacts.fold_step_nan. unfold step at 1. rewrite Hp.
  now apply FloatFacts.add_nan_r.
Qed.

Lemma blank_figure (v : Js.field) :
  v = Js.Absent \/ v = Js.Null -> Js.toFixed_opt v 2 = Js.Blank.
Proof. intros [-> | ->]; reflexivity. Qed.

End RowFacts.

(** C2 (as stated): an outcome list with a record that lacks a required
    numeric field would make the panel fail with MalformedOutcome.  The
    list [Sample.with_gap] has such a record, and the panel is rendered. *)
Lemma C2_counterexample :
  ~ (forall (r : Results.t) (os : list BetOutcome.t),
       Results.bet_outcomes r = Some os ->
       existsb Spec.malformed os = true ->
       ResultsPanel.ResultsPanel (Some r) = Js.Throws Spec.MalformedOutcome).
Proof.
  intros H.
  specialize (H (Sample.results Sample.with_gap) Sample.with_gap
                eq_refl eq_refl).
  vm_compute in H. discriminate H.
Qed.

(** C2 (amended). Every numeric field of an outcome being a number,
    [null] or missing, outcomes that lack a numeric field, because the
    key is missing or holds [null], are not rejected.  The panel never fails
    with MalformedOutcome: a TypeError is its only failure.  Whenever the
    response has its [bet_outcomes] and [evaluations] lists and the
    summary bar renders, the panel renders with it, and its table has one
    row per outcome, in input order.  In the row of an outcome whose
    stake (liability) is missing or [null] the stake (liability) figure is
    blank.  A [null] profit is added to the running P&L as 0.  From the
    row of an outcome whose profit key is missing onward, the running P&L
    shown is NaN. *)
Theorem C2_absent_fields_are_rendered (r : Results.t) :
  ResultsPanel.ResultsPanel (Some r) <> Js.Throws Spec.MalformedOutcome /\
  (forall e, ResultsPanel.ResultsPanel (Some r) = Js.Throws e ->
             e = Js.TypeError) /\
  (forall os evs bar,
     Results.bet_outcomes r = Some os ->
     Results.evaluations r = Some evs ->
     SummaryBar.SummaryBar (Results.summary r) = Js.Returns bar ->
     let rows := map (ResultsPanel.render_row evs)
                     (ResultsPanel.outcomesWithRunning os) in
     (exists title counts,
        ResultsPanel.ResultsPanel (Some r) =
        Js.Returns
          (ResultsPanel.report title bar counts
             (if Nat.eqb (List.length os) 0 then ResultsPanel.no_bets
              else ResultsPanel.table rows))) /\
     List.length rows = List.length os /\
     (forall i o,
        nth_error os i = Some o ->
        exists row x,
          nth_error rows i = Some row /\
          ResultsPanel.runner row = BetOutcome.runner_name o /\
          ResultsPanel.running row =
            [SummaryBar.sign (Js.Number x); Js.Lit "£"; Js.Fixed x 2] /\
          (BetOutcome.stake o = Js.Absent \/ BetOutcome.stake o = Js.Null ->
           ResultsPanel.stake row = [Js.Lit "£"; Js.Blank]) /\
          (BetOutcome.liability o = Js.Absent
           \/ BetOutcome.liability o = Js.Null ->
           ResultsPanel.liability row = [Js.Lit "£"; Js.Blank]) /\
          (BetOutcome.profit o = Js.Null ->
           x = (Spec.running_before
                  (map snd (ResultsPanel.outcomesWithRunning os)) i
                + 0)%float) /\
          (BetOutcome.profit o = Js.Absent ->
           forall j row', i <= j -> nth_error rows j = Some row' ->
             exists y, ResultsPanel.running row' =
                       [SummaryBar.sign (Js.Number y); Js.Lit "£";
                        Js.Fixed y 2]
                       /\ is_nan y = true))).
Proof.
  split; [| split].
  - intros H. apply RowFacts.ResultsPanel_throws in H. discriminate H.
  - apply RowFacts.ResultsPanel_throws.
  - intros os evs bar Ho He Hb rows. split; [| split].
    + do 2 eexists. now apply RowFacts.panel_of_bar.
    + subst rows. rewrite length_map.
      apply RunningFacts.running_from_length.
    + intros i o Hi. subst rows. rewrite nth_error_map.
      rewrite (RowFacts.running_recurrence os i o Hi). cbn [option_map].
      do 2 eexists. split; [reflexivity |].
      cbn [ResultsPanel.render_row ResultsPanel.runner ResultsPanel.running
           ResultsPanel.stake ResultsPanel.liability].
      split; [reflexivity |]. split; [reflexivity |].
      split; [| split; [| split]].
      * intros H. now rewrite (RowFacts.blank_figure _ H).
      * intros H. now rewrite (RowFacts.blank_figure _ H).
      * intros ->. reflexivity.
      * intros Hp j row' Hij Hj. rewrite nth_error_map in Hj.
        destruct (nth_error (ResultsPanel.outcomesWithRunning os) j)
          as [[oj y] |] eqn:Ej; [| discriminate].
        cbn in Hj. injection Hj as <-. exists y. split; [reflexivity |].
        exact (RowFacts.running_nan_after os i j o (oj, y) Hi Hp Hij Ej).
Qed.

Lemma C2_witness :
  exists row last y,
    nth_error
      (map (ResultsPanel.render_row Sample.evaluations)
           (ResultsPanel.outcomesWithRunning Sample.with_gap)) 1 = Some row
    /\ ResultsPanel.stake row = [Js.Lit "£"; Js.Blank]
    /\ ResultsPanel.liability row = [Js.Lit "£"; Js.Blank]
    /\ nth_error
         (map (ResultsPanel.render_row Sample.evaluations)
              (ResultsPanel.outcomesWithRunning Sample.with_gap)) 2 = Some last
    /\ ResultsPanel.running last =
       [SummaryBar.sign (Js.Number y); Js.Lit "£"; Js.Fixed y 2]
    /\ is_nan y = true.
Proof.
  destruct (C2_absent_fields_are_rendered (Sample.results Sample.with_gap))
    as [_ [_ H]].
  destruct (H Sample.with_gap Sample.evaluations _ eq_refl eq_refl eq_refl)
    as [_ [_ Hrows]].
  destruct (Hrows 1 (Sample.outcome "1.102" "RULE_1" Js.Absent Js.Absent
                       Js.Absent) eq_refl)
    as [row [x [Hrow [_ [_ [Hstake [Hliab [_ Hrun]]]]]]]].
  destruct (Hrun eq_refl 2 _ (le_S 1 1 (le_n 1)) eq_refl) as [y [Hy Hnan]].
  exists row. eexists. exists y.
  split; [exact Hrow |]. split; [exact (Hstake (or_introl eq_refl)) |].
  split; [exact (Hliab (or_introl eq_refl)) |]. split; [reflexivity |].
  split; [exact Hy | exact Hnan].
Defined.

(** With [null] in place of the missing keys the second bet counts as
    0: the running P&L stays a number. *)
Example with_null_running :
  map snd (ResultsPanel.outcomesWithRunning Sample.with_null)
  = [5; 5; 10]%float.
Proof. reflexivity. Qed.

(** The table for [Sample.with_gap]: three rows, the last two with a NaN
    running P&L. *)
Example with_gap_running :
  map (fun p => is_nan (snd p))
      (ResultsPanel.outcomesWithRunning Sample.with_gap)
  = [false; true; true].
Proof. reflexivity. Qed.

(* ================================================================= *)
(** * Win rate (SummaryBar) *)

(** C4. The win rate is [win_count / (win_count + loss_count)] when that
    denominator is positive and 0 otherwise, and the summary bar shows it
    multiplied by 100, as a percentage: with a positive denominator the
    figure is that product to one decimal, otherwise it is the text 0
    (the product is then zero); and this figure is the value of the bar's
    Win Rate entry. *)
Theorem C4_win_rate_percentage (s : Summary.t) :
  let w := Js.ToNumber (Summary.win_count s) in
  let l := Js.ToNumber (Summary.loss_count s) in
  (if (0 <? w + l)%float
   then Spec.win_rate w l = (w / (w + l))%float /\
        SummaryBar.win_rate_cell s =
        [Js.Fixed (Spec.win_rate w l * 100)%float 1; Js.Lit "%"]
   else Spec.win_rate w l = 0%float /\
        (Spec.win_rate w l * 100 = 0)%float /\
        SummaryBar.win_rate_cell s = [Js.Lit "0"; Js.Lit "%"]) /\
  (forall stats,
     SummaryBar.SummaryBar (Some s) = Js.Returns (Some stats) ->
     nth_error stats 3 =
     Some (SummaryBar.mk_stat "Win Rate" "" (SummaryBar.win_rate_cell s))).
Proof.
  intros w l. split.
  - unfold SummaryBar.win_rate_cell, Spec.win_rate. fold w. fold l.
    destruct (0 <? w + l)%float; repeat split; reflexivity.
  - intros stats H. unfold SummaryBar.SummaryBar in H.
    destruct (Summary.total_pnl s), (Summary.roi_percent s),
      (Summary.total_stake s), (Summary.total_liability s),
      (Summary.avg_win s), (Summary.avg_loss s); cbn in H;
      try discriminate H.
    injection H as <-. reflexivity.
Qed.

Lemma C4_witness :
  exists stats,
    SummaryBar.SummaryBar (Some Sample.summary) = Js.Returns (Some stats)
    /\ nth_error stats 3 =
       Some (SummaryBar.mk_stat "Win Rate" ""
               (SummaryBar.win_rate_cell Sample.summary)).
Proof.
  eexists. split; [reflexivity |].
  exact (proj2 (C4_win_rate_percentage Sample.summary) _ eq_refl).
Defined.

(** Two wins and one loss show as 66.7 (two thirds times 100). *)
Example win_rate_example :
  SummaryBar.win_rate_cell Sample.summary
  = [Js.Fixed ((2 / 3) * 100)%float 1; Js.Lit "%"].
Proof. reflexivity. Qed.

(* ================================================================= *)
(** * Joining outcomes to evaluations (ResultsPanel) *)

Module JoinFacts.

Lemma find_none (evaluations : list Evaluation.t) (o : BetOutcome.t) :
  (forall e, In e evaluations ->
     Evaluation.market_id e <> BetOutcome.market_id o) ->
  ResultsPanel.eval_ evaluations o = None.
Proof.
  intros H. unfold ResultsPanel.eval_.
  destruct (find _ evaluations) as [e |] eqn:E; [| reflexivity].
  apply find_some in E. destruct E as [Hin Heq].
  apply String.eqb_eq in Heq. now apply H in Hin.
Qed.

End JoinFacts.

(** C7. When no evaluation has the outcome's [market_id], the row of
    the outcome is still produced and its venue and market name are
    empty strings; this holds for every outcome and evaluations list. *)
Theorem C7_missing_evaluation_is_blank
  (evaluations : list Evaluation.t) (o : BetOutcome.t) (running_pnl : float) :
  (forall e, In e evaluations ->
     Evaluation.market_id e <> BetOutcome.market_id o) ->
  ResultsPanel.venue (ResultsPanel.render_row evaluations (o, running_pnl)) = ""
  /\
  ResultsPanel.market (ResultsPanel.render_row evaluations (o, running_pnl)) = "".
Proof.
  intros H. unfold ResultsPanel.render_row. cbn.
  rewrite (JoinFacts.find_none evaluations o H). split; reflexivity.
Qed.

Lemma C7_witness :
  let o := Sample.outcome "1.102" "RULE_1" Js.Absent Js.Absent Js.Absent in
  ResultsPanel.venue
    (ResultsPanel.render_row Sample.evaluations (o, 2%float)) = ""
  /\
  ResultsPanel.market
    (ResultsPanel.render_row Sample.evaluations (o, 2%float)) = "".
Proof.
  apply (C7_missing_evaluation_is_blank Sample.evaluations
           (Sample.outcome "1.102" "RULE_1" Js.Absent Js.Absent Js.Absent) 2%float).
  intros e [<- | [<- | []]]; cbn; discriminate.
Defined.

(** A matching evaluation without a name gives the venue and an empty
    market name. *)
Example join_example :
  let row := ResultsPanel.render_row Sample.evaluations
               (Sample.outcome "1.103" "RULE_2" Js.Absent Js.Absent Js.Absent, 0%float) in
  ResultsPanel.venue row = "York" /\ ResultsPanel.market row = "".
Proof. split; reflexivity. Qed.

(* ================================================================= *)
(** * Stake edits (ActionRow) *)

(** C9 (as stated): every stake edit would leave a stake above zero.
    An empty box parses to NaN and stores 0. *)
Lemma C9_counterexample :
  ~ (forall (action : Action.t) (parsed : float),
       (0 <? Action.stake (ActionRow.stake_onChange action parsed))%float
       = true).
Proof.
  intros H. specialize (H Sample.action nan). vm_compute in H.
  discriminate H.
Qed.

(** C9 (amended). A stake edit stores a number that is never NaN: the
    parsed input when that is a number other than zero, and 0 otherwise.
    The editor does not enforce a positive stake: the stored stake is
    above zero exactly when the parsed input is.  The target and the bet
    type are untouched. *)
Theorem C9_stake_edit_stores_number (action : Action.t) (parsed : float) :
  let action' := ActionRow.stake_onChange action parsed in
  Action.stake action' = (if Js.truthy parsed then parsed else 0%float) /\
  is_nan (Action.stake action') = false /\
  (0 <? Action.stake action')%float = (0 <? parsed)%float /\
  Action.target action' = Action.target action /\
  Action.bet_type action' = Action.bet_type action.
Proof.
  cbn. unfold Js.or_else.
  destruct (Js.truthy parsed) eqn:E; repeat split.
  - now apply FloatFacts.truthy_not_nan.
  - symmetry. now apply FloatFacts.falsy_not_positive.
Qed.

(** A negative input is stored as it is. *)
Example negative_stake_example :
  Action.stake (ActionRow.stake_onChange Sample.action (-5)%float)
  = (-5)%float.
Proof. reflexivity. Qed.

(* ================================================================= *)
(** * Sorting by priority (StrategyEditor) *)

Module SortFacts.

Import StrategyEditor.

Lemma by_priority_le (a b : Rule.t) :
  (by_priority a b <=? 0)%Z = true <-> Spec.priority_le a b.
Proof.
  unfold by_priority, Spec.priority_le. rewrite Z.leb_le. lia.
Qed.

Lemma by_priority_gt (a b : Rule.t) :
  (by_priority a b <=? 0)%Z = false ->
  (Rule.priority b < Rule.priority a)%Z.
Proof. unfold by_priority. rewrite Z.leb_gt. lia. Qed.

Lemma insert_perm (x : Rule.t) (l : list Rule.t) :
  Permutation (JsArray.insert by_priority x l) (x :: l).
Proof.
  induction l as [| y l IH]; simpl.
  - apply Permutation_refl.
  - destruct (by_priority x y <=? 0)%Z.
    + apply Permutation_refl.
    + eapply perm_trans; [apply perm_skip, IH | apply perm_swap].
Qed.

Lemma sort_perm (l : list Rule.t) : Permutation (JsArray.sort by_priority l) l.
Proof.
  induction l as [| x l IH]; simpl.
  - apply perm_nil.
  - eapply perm_trans; [apply insert_perm | now apply perm_skip].
Qed.

Lemma insert_hd (x y : Rule.t) (l : list Rule.t) :
  Spec.priority_le y x -> HdRel Spec.priority_le y l ->
  HdRel Spec.priority_le y (JsArray.insert by_priority x l).
Proof.
  intros Hyx H. destruct l as [| z l]; simpl.
  - now constructor.
  - destruct (by_priority x z <=? 0)%Z; constructor; trivial.
    now inversion H.
Qed.

Lemma insert_sorted (x : Rule.t) (l : list Rule.t) :
  Sorted Spec.priority_le l -> Sorted Spec.priority_le (JsArray.insert by_priority x l).
Proof.
  induction l as [| y l IH]; intros H; simpl.
  - repeat constructor.
  - destruct (by_priority x y <=? 0)%Z eqn:E.
    + constructor; [exact H |]. constructor. now apply by_priority_le.
    + inversion H; subst. constructor; [now apply IH |].
      apply insert_hd; [| assumption].
      apply by_priority_gt in E. unfold Spec.priority_le. lia.
Qed.

Lemma sort_sorted (l : list Rule.t) : Sorted Spec.priority_le (JsArray.sort by_priority l).
Proof.
  induction l as [| x l IH]; simpl.
  - constructor.
  - now apply insert_sorted.
Qed.

Lemma priority_le_trans : Relations_1.Transitive Spec.priority_le.
Proof. intros a b c. unfold Spec.priority_le. lia. Qed.

(** Inserting a rule never moves it across a rule of its own priority. *)
Lemma insert_with_priority (p : Z) (x : Rule.t) (l : list Rule.t) :
  Spec.with_priority p (JsArray.insert by_priority x l) = Spec.with_priority p (x :: l).
Proof.
  induction l as [| y l IH]; simpl.
  - reflexivity.
  - destruct (by_priority x y <=? 0)%Z eqn:E.
    + reflexivity.
    + apply by_priority_gt in E. change (Spec.with_priority p (y :: JsArray.insert by_priority x l))
        with (if (Rule.priority y =? p)%Z then y :: Spec.with_priority p (JsArray.insert by_priority x l)
              else Spec.with_priority p (JsArray.insert by_priority x l)).
      rewrite IH. simpl.
      destruct (Rule.priority y =? p)%Z eqn:Ey,
               (Rule.priority x =? p)%Z eqn:Ex; try reflexivity.
      apply Z.eqb_eq in Ey, Ex. lia.
Qed.

Lemma sort_with_priority (p : Z) (l : list Rule.t) :
  Spec.with_priority p (JsArray.sort by_priority l) = Spec.with_priority p l.
Proof.
  induction l as [| x l IH]; simpl.
  - reflexivity.
  - rewrite insert_with_priority. simpl. now rewrite IH.
Qed.

(** A list already in ascending priority order is left as it is. *)
Lemma sort_sorted_id (l : list Rule.t) :
  Sorted Spec.priority_le l -> JsArray.sort by_priority l = l.
Proof.
  induction l as [| x l IH]; intros H; simpl.
  - reflexivity.
  - inversion H as [| ? ? Hl Hhd]; subst. rewrite (IH Hl).
    destruct l as [| y l]; simpl; [reflexivity |].
    inversion Hhd as [| ? ? Hxy]; subst.
    apply by_priority_le in Hxy. now rewrite Hxy.
Qed.



Lemma cards_from_rules (rules : list Rule.t) :
  forall i, map rule (cards_from i rules) = rules.
Proof.
  induction rules as [| r rules IH]; intros i; simpl.
  - reflexivity.
  - now rewrite IH.
Qed.

Lemma cards_from_nth (rules : list Rule.t) :
  forall i k,
    nth_error (cards_from i rules) k =
    option_map (fun r => mk_card (Rule.id r) r (i + k)) (nth_error rules k).
Proof.
  induction rules as [| r rules IH]; intros i k.
  - destruct k; reflexivity.
  - destruct k as [| k]; simpl.
    + now rewrite Nat.add_0_r.
    + rewrite IH. now rewrite Nat.add_succ_r.
Qed.

Lemma set_spec (A : Type) (l : list A) :
  forall i v,
    i < List.length l ->
    exists l',
      JsArray.set l i v = Some l'
      /\ nth_error l' i = Some v
      /\ (forall j, j <> i -> nth_error l' j = nth_error l j).
Proof.
  induction l as [| x l IH]; intros i v Hi; cbn in Hi; [lia |].
  destruct i as [| i].
  - exists (v :: l). repeat split. intros [| j] Hj; [lia | reflexivity].
  - destruct (IH i v ltac:(lia)) as [l' [E [Hv Hother]]].
    exists (x :: l'). cbn. rewrite E. repeat split; [exact Hv |].
    intros [| j] Hj; [reflexivity |]. cbn. apply Hother. lia.
Qed.

(** The index a card hands to [updateRule] addresses, in the strategy
    as the render left it, the rule the card shows. *)
Lemma update_shown_rule (strategy : Strategy.t) (k : nat) (c : card)
  (updated : Rule.t) :
  nth_error (snd (render strategy)) k = Some c ->
  nth_error (Strategy.rules (fst (render strategy))) (index c)
  = Some (rule c)
  /\ exists strategy'',
      updateRule (fst (render strategy)) (index c) updated = Some strategy''
      /\ nth_error (Strategy.rules strategy'') (index c) = Some updated
      /\ (forall j, j <> index c ->
            nth_error (Strategy.rules strategy'') j =
            nth_error (Strategy.rules (fst (render strategy))) j).
Proof.
  unfold render. cbn [fst snd Strategy.rules Strategy.id Strategy.name].
  rewrite cards_from_nth. intros H.
  destruct (nth_error (JsArray.sort by_priority (Strategy.rules strategy)) k)
    as [r |] eqn:E; [| discriminate].
  cbn in H. injection H as <-. cbn [index rule]. split; [exact E |].
  assert (k < List.length (JsArray.sort by_priority (Strategy.rules strategy)))
    as Hk by (apply nth_error_Some; congruence).
  destruct (set_spec _ _ k updated Hk) as [l' [Hset [Hv Hother]]].
  unfold updateRule. cbn [Strategy.rules Strategy.id Strategy.name].
  rewrite Hset. cbn [option_map]. eexists. split; [reflexivity |].
  cbn [Strategy.rules]. split; assumption.
Qed.

Lemma sort_idempotent (l : list Rule.t) :
  JsArray.sort by_priority (JsArray.sort by_priority l)
  = JsArray.sort by_priority l.
Proof. apply sort_sorted_id, sort_sorted. Qed.

Lemma render_again (strategy : Strategy.t) :
  render (fst (render strategy)) = render strategy.
Proof.
  unfold render. cbn [fst Strategy.rules Strategy.id Strategy.name].
  now rewrite sort_idempotent.
Qed.

End SortFacts.

(** C8. The rules are shown in ascending priority order, and rules of
    equal priority keep the order they had in the input list: the cards
    are a rearrangement of the stored rules in which every rule's
    priority is at most that of every rule after it, and for each
    priority the rules of that priority appear in input order. *)
Theorem C8_priority_order_is_stable (strategy : Strategy.t) :
  let shown := map StrategyEditor.rule (snd (StrategyEditor.render strategy)) in
  StronglySorted Spec.priority_le shown /\
  Permutation shown (Strategy.rules strategy) /\
  (forall p,
     Spec.with_priority p shown =
     Spec.with_priority p (Strategy.rules strategy)).
Proof.
  cbn. rewrite SortFacts.cards_from_rules. split; [| split].
  - apply Sorted_StronglySorted.
    + exact SortFacts.priority_le_trans.
    + apply SortFacts.sort_sorted.
  - apply SortFacts.sort_perm.
  - intros p. apply SortFacts.sort_with_priority.
Qed.

(** The sample strategy, stored as C(2) A(1) D(2) B(1), is shown as
    A B C D. *)
Example priority_order_example :
  map (fun c => Rule.id (StrategyEditor.rule c))
      (snd (StrategyEditor.render Sample.strategy))
  = ["A"; "B"; "C"; "D"].
Proof. reflexivity. Qed.

(** C3 (as stated): reading the rules in priority order would leave the
    stored rules list as it was.  The sample strategy is stored out of
    order, and after the render it is stored in priority order. *)
Lemma C3_counterexample :
  ~ (forall strategy : Strategy.t,
       Strategy.rules (fst (StrategyEditor.render strategy))
       = Strategy.rules strategy).
Proof.
  intros H. specialize (H Sample.strategy). vm_compute in H.
  discriminate H.
Qed.

(** C3 (amended). Reading the rules in priority order sorts the stored
    rules array in place.  After a render the stored list is the list
    that is displayed, the stable ascending-priority arrangement of what
    was stored before; card [k] carries index [k] of that stored list.
    The stored list is unchanged exactly when it was already in ascending
    priority order, and a second render changes nothing more.  The id
    and the name of the strategy are untouched, and the same holds for
    the strategy object of the application state. *)
Theorem C3_render_sorts_in_place (strategy : Strategy.t) :
  let strategy' := fst (StrategyEditor.render strategy) in
  let cards := snd (StrategyEditor.render strategy) in
  Strategy.rules strategy' = map StrategyEditor.rule cards /\
  Strategy.rules strategy' =
    JsArray.sort StrategyEditor.by_priority (Strategy.rules strategy) /\
  Permutation (Strategy.rules strategy') (Strategy.rules strategy) /\
  (forall k,
     nth_error cards k =
     option_map (fun r => StrategyEditor.mk_card (Rule.id r) r k)
                (nth_error (Strategy.rules strategy') k)) /\
  (Strategy.rules strategy' = Strategy.rules strategy <->
   Sorted Spec.priority_le (Strategy.rules strategy)) /\
  StrategyEditor.render strategy' = StrategyEditor.render strategy /\
  Strategy.id strategy' = Strategy.id strategy /\
  Strategy.name strategy' = Strategy.name strategy /\
  (forall s m r b snt con,
     fst (App.render_editor
            (App.mk_world (App.mk_state s m (Some strategy) r b) snt con))
     = App.mk_world (App.mk_state s m (Some strategy') r b) snt con).
Proof.
  cbn. rewrite SortFacts.cards_from_rules.
  split; [reflexivity |]. split; [reflexivity |].
  split; [apply SortFacts.sort_perm |].
  split; [intros k; apply SortFacts.cards_from_nth |].
  split.
  { split.
    - intros <-. apply SortFacts.sort_sorted.
    - apply SortFacts.sort_sorted_id. }
  split; [apply (SortFacts.render_again strategy) |].
  repeat split.
Qed.

(* ================================================================= *)
(** * Running a back-test (App) *)

Module RunFacts.

Import App.

(** The [marketIds] argument [handleRun] computes. *)
Lemma marketIds_cases (selected : list string) :
  (if Nat.ltb 0 (List.length selected) then Some selected else None)
  = match selected with
    | [] => None
    | _ :: _ => Some selected
    end.
Proof. destruct selected; reflexivity. Qed.

Lemma truthy_string_false (s : string) :
  Js.truthy_string s = false <-> s = "".
Proof. destruct s; simpl; split; congruence. Qed.

End RunFacts.

(** C6. When a run is started and the call to the execution engine
    throws, the results held in the state are the ones held before the
    run, the failure is written to the console as a simulation error, and
    the running flag is back to false; the call was made once. *)
Theorem C6_failed_run_keeps_results
  (server : App.engine) (w : App.world) (strat : Strategy.t) (err : string) :
  Js.truthy_string (App.selectedDate (App.app w)) = true ->
  App.strategy (App.app w) = Some strat ->
  server
    (App.mk_request (App.selectedDate (App.app w)) strat
       (if Nat.ltb 0 (List.length (App.selectedMarkets (App.app w)))
        then Some (App.selectedMarkets (App.app w)) else None))
  = Js.Throws err ->
  let w' := App.handleRun server w in
  App.results (App.app w') = App.results (App.app w) /\
  App.console w' = App.console w ++ [("Simulation error:", err)] /\
  App.running (App.app w') = false /\
  App.strategy (App.app w') = App.strategy (App.app w) /\
  App.selectedDate (App.app w') = App.selectedDate (App.app w) /\
  App.selectedMarkets (App.app w') = App.selectedMarkets (App.app w) /\
  List.length (App.sent w') = S (List.length (App.sent w)).
Proof.
  destruct w as [[d m st r b] snt con]. cbn. intros Hd -> Hthrow.
  unfold App.handleRun, App.runSimulation. cbn. rewrite Hd, Hthrow. cbn.
  rewrite length_app, Nat.add_1_r. repeat split.
Qed.

Lemma C6_witness :
  let w := App.mk_world
             (App.mk_state "2024-05-01" ["1.101"] (Some Sample.strategy)
                (Some (Sample.results Sample.three_outcomes)) false)
             [] [] in
  let w' := App.handleRun Sample.failing w in
  App.results (App.app w') = Some (Sample.results Sample.three_outcomes) /\
  App.console w' = [("Simulation error:", "NetworkError")] /\
  App.running (App.app w') = false /\
  App.strategy (App.app w') = Some Sample.strategy /\
  App.selectedDate (App.app w') = "2024-05-01" /\
  App.selectedMarkets (App.app w') = ["1.101"] /\
  List.length (App.sent w') = 1.
Proof.
  exact (C6_failed_run_keeps_results Sample.failing
           (App.mk_world
              (App.mk_state "2024-05-01" ["1.101"] (Some Sample.strategy)
                 (Some (Sample.results Sample.three_outcomes)) false)
              [] [])
           Sample.strategy "NetworkError" eq_refl eq_refl eq_refl).
Defined.

(** A run that succeeds replaces the results. *)
Example successful_run_example :
  App.results
    (App.app
       (App.handleRun Sample.answering
          (Sample.world (Sample.state "2024-05-01" [] (Some Sample.strategy)))))
  = Some (Sample.results Sample.three_outcomes).
Proof. reflexivity. Qed.

(** C10. With a date and a strategy, a run sends one request carrying
    the date and the strategy; its [market_ids] is [null] when no market
    is selected and the selected market ids otherwise.  Without a date or
    without a strategy the run does nothing. *)
Theorem C10_request_market_ids (server : App.engine) (w : App.world) :
  let s := App.app w in
  (forall strat,
     Js.truthy_string (App.selectedDate s) = true ->
     App.strategy s = Some strat ->
     App.selectedMarkets s = [] ->
     App.sent (App.handleRun server w) =
     App.sent w ++ [App.mk_request (App.selectedDate s) strat None]) /\
  (forall strat,
     Js.truthy_string (App.selectedDate s) = true ->
     App.strategy s = Some strat ->
     App.selectedMarkets s <> [] ->
     App.sent (App.handleRun server w) =
     App.sent w ++ [App.mk_request (App.selectedDate s) strat
                      (Some (App.selectedMarkets s))]) /\
  (App.selectedDate s = "" \/ App.strategy s = None ->
   App.handleRun server w = w).
Proof.
  cbn. split; [| split].
  - intros strat Hd Hs Hm. unfold App.handleRun, App.runSimulation.
    rewrite Hd, Hs, Hm. cbn.
    destruct (server _); reflexivity.
  - intros strat Hd Hs Hm. unfold App.handleRun, App.runSimulation.
    rewrite Hd, Hs, RunFacts.marketIds_cases.
    destruct (App.selectedMarkets (App.app w)) as [| m ms];
      [congruence |]. cbn.
    destruct (server _); reflexivity.
  - intros [Hd | Hs]; unfold App.handleRun.
    + rewrite Hd. reflexivity.
    + rewrite Hs. destruct (Js.truthy_string _); reflexivity.
Qed.

Lemma C10_witness :
  App.sent
    (App.handleRun Sample.answering
       (Sample.world (Sample.state "2024-05-01" [] (Some Sample.strategy))))
  = [App.mk_request "2024-05-01" Sample.strategy None]
  /\
  App.sent
    (App.handleRun Sample.answering
       (Sample.world
          (Sample.state "2024-05-01" ["1.101"; "1.103"]
             (Some Sample.strategy))))
  = [App.mk_request "2024-05-01" Sample.strategy (Some ["1.101"; "1.103"])]
  /\
  App.handleRun Sample.answering
    (Sample.world (Sample.state "" ["1.101"] (Some Sample.strategy)))
  = Sample.world (Sample.state "" ["1.101"] (Some Sample.strategy))
  /\
  App.handleRun Sample.answering
    (Sample.world (Sample.state "2024-05-01" ["1.101"] None))
  = Sample.world (Sample.state "2024-05-01" ["1.101"] None).
Proof.
  split; [| split; [| split]].
  - apply (C10_request_market_ids Sample.answering
             (Sample.world
                (Sample.state "2024-05-01" [] (Some Sample.strategy))));
      reflexivity.
  - apply (C10_request_market_ids Sample.answering
             (Sample.world
                (Sample.state "2024-05-01" ["1.101"; "1.103"]
                   (Some Sample.strategy))));
      [reflexivity | reflexivity | discriminate].
  - apply (C10_request_market_ids Sample.answering
             (Sample.world
                (Sample.state "" ["1.101"] (Some Sample.strategy)))).
    left. reflexivity.
  - apply (C10_request_market_ids Sample.answering
             (Sample.world (Sample.state "2024-05-01" ["1.101"] None))).
    right. reflexivity.
Defined.

(* ================================================================= *)
(** * Export and import of a strategy (JSON) *)

Module JsonFacts.

Import JSON.

(** Turns the character tests of a goal into arithmetic. *)
Ltac chars :=
  unfold is_ws, num_start, num_char, is_digit, is_lead, is_trail in *;
  repeat rewrite ?orb_true_iff, ?andb_true_iff, ?orb_false_iff,
    ?andb_false_iff, ?negb_true_iff, ?negb_false_iff, ?N.eqb_eq,
    ?N.eqb_neq, ?N.leb_le, ?N.leb_gt, ?N.ltb_lt, ?N.ltb_ge in *;
  try lia.

Lemma num_start_not_ws (c : N) : num_start c = true -> is_ws c = false.
Proof. chars. Qed.

Lemma num_start_char (c : N) : num_start c = true -> num_char c = true.
Proof. chars. Qed.

Lemma text_eqb_eq (a : text) : forall b, text_eqb a b = true <-> a = b.
Proof.
  induction a as [| x a IH]; intros [| y b]; simpl; split;
    try congruence; try discriminate.
  - rewrite andb_true_iff, N.eqb_eq, IH. intros [-> ->]. reflexivity.
  - intros H. injection H as -> ->. now rewrite N.eqb_refl, (proj2 (IH b)).
Qed.

(** ** Strings *)

Lemma hex_digit_value (d : N) :
  (d < 16)%N -> hex_value (hex_digit d) = Some d.
Proof.
  intros H.
  assert (d = 0 \/ d = 1 \/ d = 2 \/ d = 3 \/ d = 4 \/ d = 5 \/ d = 6
          \/ d = 7 \/ d = 8 \/ d = 9 \/ d = 10 \/ d = 11 \/ d = 12
          \/ d = 13 \/ d = 14 \/ d = 15)%N as E by lia.
  repeat (destruct E as [-> | E]; [reflexivity |]). now subst.
Qed.

Lemma hex4_unicode (c : N) :
  (c < 65536)%N ->
  hex4 (hex_digit ((c / 4096) mod 16)) (hex_digit ((c / 256) mod 16))
       (hex_digit ((c / 16) mod 16)) (hex_digit (c mod 16)) = Some c.
Proof.
  intros H. unfold hex4.
  rewrite !hex_digit_value by (apply N.mod_lt; discriminate).
  f_equal.
  assert (c / 4096 < 16)%N by (apply N.Div0.div_lt_upper_bound; lia).
  rewrite (N.mod_small (c / 4096)) by assumption.
  pose proof (N.div_mod c 16 ltac:(discriminate)) as E0.
  pose proof (N.div_mod (c / 16) 16 ltac:(discriminate)) as E1.
  pose proof (N.div_mod (c / 256) 16 ltac:(discriminate)) as E2.
  replace (c / 16 / 16)%N with (c / 256)%N in E1
    by (now rewrite N.Div0.div_div).
  replace (c / 256 / 16)%N with (c / 4096)%N in E2
    by (now rewrite N.Div0.div_div).
  lia.
Qed.

Lemma string_chars_unicode (c : N) (rest : text) :
  (c < 65536)%N ->
  string_chars (unicode_escape c ++ rest) = cons_fst c (string_chars rest).
Proof.
  intros H. unfold unicode_escape. cbn [app string_chars N.eqb Pos.eqb].
  now rewrite hex4_unicode.
Qed.

Lemma string_chars_raw (c : N) (rest : text) :
  (32 <= c)%N -> c <> 34%N -> c <> 92%N ->
  string_chars (c :: rest) = cons_fst c (string_chars rest).
Proof.
  intros H1 H2 H3. cbn [string_chars].
  apply N.eqb_neq in H2, H3. rewrite H2, H3.
  now rewrite (proj2 (N.ltb_ge c 32) H1).
Qed.

Lemma string_chars_escape (c : N) (rest : text) :
  string_chars (escape_unit c ++ rest) = cons_fst c (string_chars rest).
Proof.
  unfold escape_unit.
  repeat match goal with
         | |- context [(c =? ?k)%N] =>
             destruct (N.eqb_spec c k) as [-> | ?]; [reflexivity |]
         end.
  destruct (N.ltb_spec c 32).
  - apply string_chars_unicode. lia.
  - apply string_chars_raw; assumption.
Qed.

Lemma string_chars_quote_body (n : nat) :
  forall s tail,
    List.length s <= n ->
    string_chars (quote_body s ++ 34%N :: tail) = Some (s, tail).
Proof.
  induction n as [| n IH]; intros s tail Hn.
  - destruct s; [reflexivity | simpl in Hn; lia].
  - destruct s as [| c rest]; [reflexivity |]. simpl in Hn.
    cbn [quote_body].
    destruct (is_lead c) eqn:Hl.
    + destruct rest as [| d rest'].
      * rewrite string_chars_unicode by chars. reflexivity.
      * destruct (is_trail d) eqn:Ht.
        -- cbn [app]. rewrite string_chars_raw by chars.
           rewrite string_chars_raw by chars.
           rewrite IH by (simpl in Hn; lia). reflexivity.
        -- rewrite <- app_assoc, string_chars_unicode by chars.
           rewrite IH by lia. reflexivity.
    + destruct (is_trail c) eqn:Ht.
      * rewrite <- app_assoc, string_chars_unicode by chars.
        rewrite IH by lia. reflexivity.
      * rewrite <- app_assoc, string_chars_escape.
        rewrite IH by lia. reflexivity.
Qed.

(** Reading back a quoted string gives the string. *)
Lemma string_chars_quote (s tail : text) :
  exists body, quote s ++ tail = 34%N :: body
               /\ string_chars body = Some (s, tail).
Proof.
  exists (quote_body s ++ 34%N :: tail). split.
  - unfold quote. cbn [app]. now rewrite <- app_assoc.
  - now apply string_chars_quote_body with (n := List.length s).
Qed.

(** ** Numbers and layout *)

Lemma span_num_token (tok : text) :
  forall rest,
    forallb num_char tok = true -> delimited rest = true ->
    span_num (tok ++ rest) = (tok, rest).
Proof.
  induction tok as [| c tok IH]; intros rest Ht Hd.
  - destruct rest as [| c rest]; [reflexivity |]. cbn in *.
    apply negb_true_iff in Hd. now rewrite Hd.
  - cbn in *. apply andb_true_iff in Ht. destruct Ht as [Hc Ht].
    now rewrite Hc, IH.
Qed.

Lemma skip_ws_spaces (n : nat) (s : text) :
  skip_ws (spaces n ++ s) = skip_ws s.
Proof. induction n as [| n IH]; [reflexivity | exact IH]. Qed.

Lemma skip_ws_stop (c : N) (s : text) :
  is_ws c = false -> skip_ws (c :: s) = c :: s.
Proof. intros H. cbn. now rewrite H. Qed.

(** A line break and an indentation are skipped. *)
Lemma skip_ws_break (n : nat) (s : text) :
  skip_ws (10%N :: spaces n ++ s) = skip_ws s.
Proof. cbn. apply skip_ws_spaces. Qed.

Lemma expect_literal (lit rest : text) : expect lit (lit ++ rest) = Some rest.
Proof.
  induction lit as [| c lit IH]; cbn.
  - now destruct rest.
  - now rewrite N.eqb_refl.
Qed.

(** ** Objects *)

Lemma no_dup_keys_NoDup (keys : list text) :
  no_dup_keys keys = true <-> NoDup keys.
Proof.
  induction keys as [| k keys IH]; cbn.
  - split; [constructor | reflexivity].
  - rewrite andb_true_iff, negb_true_iff, IH. split.
    + intros [Hk Hn]. constructor; [| assumption].
      intros Hin. assert (existsb (text_eqb k) keys = true) as E.
      { apply existsb_exists. exists k. split; [assumption |].
        now apply text_eqb_eq. }
      congruence.
    + intros H. inversion H as [| ? ? Hk Hn]; subst. split; [| assumption].
      destruct (existsb (text_eqb k) keys) eqn:E; [| reflexivity].
      apply existsb_exists in E. destruct E as [k' [Hin Heq]].
      apply text_eqb_eq in Heq. now subst.
Qed.

Section Objects.

Variable num : Type.

Lemma define_fresh (k : text) (v : value num) (props : list (text * value num)) :
  ~ In k (map fst props) -> define k v props = props ++ [(k, v)].
Proof.
  induction props as [| [k' v'] props IH]; cbn; intros H.
  - reflexivity.
  - destruct (text_eqb k k') eqn:E.
    + apply text_eqb_eq in E. subst. tauto.
    + rewrite IH by tauto. reflexivity.
Qed.

Lemma fold_define (members : list (text * value num)) :
  forall props,
    NoDup (map fst (props ++ members)) ->
    fold_left (fun ps kv => define (fst kv) (snd kv) ps) members props
    = props ++ members.
Proof.
  induction members as [| [k v] members IH]; intros props H; cbn.
  - now rewrite app_nil_r.
  - rewrite define_fresh.
    + rewrite IH; rewrite <- app_assoc; [reflexivity | exact H].
    + rewrite map_app in H. cbn in H. apply NoDup_remove_2 in H.
      intros Hin. apply H. apply in_or_app. now left.
Qed.

(** Defining the properties of an object one by one, in the order the
    object lists them, builds that object. *)
Lemma object_of_props (props : list (text * value num)) :
  no_dup_keys (map fst props) = true -> object_of props = props.
Proof.
  intros H. unfold object_of. rewrite fold_define; [reflexivity |].
  now apply no_dup_keys_NoDup.
Qed.

(** Induction on values, with the items of an array and the properties
    of an object as induction hypotheses. *)
Lemma value_induction (P : value num -> Prop) :
  P Null ->
  (forall b, P (Bool b)) ->
  (forall n, P (Num n)) ->
  (forall s, P (Str s)) ->
  (forall items, Forall P items -> P (Arr items)) ->
  (forall props, Forall (fun kv => P (snd kv)) props -> P (Obj props)) ->
  forall v, P v.
Proof.
  intros HNull HBool HNum HStr HArr HObj.
  fix IH 1. intros [| b | n | s | items | props].
  - exact HNull.
  - apply HBool.
  - apply HNum.
  - apply HStr.
  - apply HArr. induction items as [| x items IHitems].
    + constructor.
    + constructor; [apply IH | exact IHitems].
  - apply HObj. induction props as [| [k x] props IHprops].
    + constructor.
    + constructor; [apply IH | exact IHprops].
Qed.

End Objects.

(** ** Reading back what was written *)

Section RoundTrip.

Variable num : Type.
Variable print_num : num -> text.
Variable parse_num : text -> option num.

(** The two conversions of numbers agree, and a written number has the
    shape of a number token. *)
Hypothesis parse_print : forall n, parse_num (print_num n) = Some n.
Hypothesis print_token : forall n, num_token (print_num n) = true.

Lemma parse_value_ws (fuel : nat) (s1 s2 : text) :
  skip_ws s1 = skip_ws s2 ->
  parse_value parse_num fuel s1 = parse_value parse_num fuel s2.
Proof. intros H. destruct fuel; cbn [parse_value]; now rewrite ?H. Qed.

Lemma parse_members_ws (fuel : nat) (s1 s2 : text) :
  skip_ws s1 = skip_ws s2 ->
  parse_members parse_num fuel s1 = parse_members parse_num fuel s2.
Proof. intros H. destruct fuel; cbn [parse_members]; now rewrite ?H. Qed.

Lemma parse_value_array (fuel : nat) (rest : text) (c : N) (t : text) :
  skip_ws rest = c :: t -> c <> 93%N ->
  parse_value parse_num (S fuel) (91%N :: rest) =
  match parse_elements parse_num fuel rest with
  | Some (items, rest') => Some (Arr items, rest')
  | None => None
  end.
Proof.
  intros H Hc. cbn. rewrite H. apply N.eqb_neq in Hc. now rewrite Hc.
Qed.

Lemma parse_value_object (fuel : nat) (rest : text) (c : N) (t : text) :
  skip_ws rest = c :: t -> c <> 125%N ->
  parse_value parse_num (S fuel) (123%N :: rest) =
  match parse_members parse_num fuel rest with
  | Some (members, rest') => Some (Obj (object_of members), rest')
  | None => None
  end.
Proof.
  intros H Hc. cbn. rewrite H. apply N.eqb_neq in Hc. now rewrite Hc.
Qed.

(** A written value starts with a character that is neither white space
    nor a closing bracket. *)
Lemma serialize_first (v : value num) (indent : nat) :
  exists c t,
    serialize print_num indent v = c :: t
    /\ is_ws c = false /\ c <> 93%N.
Proof.
  destruct v as [| b | n | s | items | props]; cbn [serialize].
  - do 2 eexists. split; [reflexivity |]. split; [reflexivity | discriminate].
  - destruct b; do 2 eexists;
      (split; [reflexivity |]; split; [reflexivity | discriminate]).
  - pose proof (print_token n) as H. destruct (print_num n) as [| c t].
    + discriminate H.
    + cbn in H. apply andb_true_iff in H. destruct H as [H _].
      exists c, t. split; [reflexivity |]. clear - H. split; chars.
  - do 2 eexists. split; [reflexivity |]. split; [reflexivity | discriminate].
  - destruct items; do 2 eexists;
      (split; [reflexivity |]; split; [reflexivity | discriminate]).
  - destruct props; do 2 eexists;
      (split; [reflexivity |]; split; [reflexivity | discriminate]).
Qed.

Lemma join_first (sep p : text) (ps : list text) (c : N) (t : text) :
  p = c :: t -> exists t', join sep (p :: ps) = c :: t'.
Proof.
  intros ->. destruct ps; cbn [join app]; eauto.
Qed.

(** What a value needs of the parser's bound, item by item. *)
Lemma parse_elements_items (k indent : nat) (items : list (value num)) :
  items <> [] ->
  Forall (fun v => forall fuel rest,
            size v <= fuel -> delimited rest = true ->
            parse_value parse_num fuel (serialize print_num k v ++ rest)
            = Some (v, rest)) items ->
  forall fuel rest,
    fold_right (fun x n => S (size x + n)) 0 items <= fuel ->
    parse_elements parse_num fuel
      (10%N :: spaces k
       ++ join (44%N :: 10%N :: spaces k) (map (serialize print_num k) items)
       ++ 10%N :: spaces indent ++ 93%N :: rest)
    = Some (items, rest).
Proof.
  induction items as [| x items IH]; [congruence |].
  intros _ HF fuel rest Hfuel. inversion HF as [| ? ? Hx Hitems]; subst.
  cbn [fold_right] in Hfuel. destruct fuel as [| fuel]; [lia |].
  cbn [parse_elements map].
  destruct items as [| y items].
  - cbn [join map].
    rewrite (parse_value_ws fuel _
               (serialize print_num k x ++ 10%N :: spaces indent ++ 93%N :: rest))
      by apply skip_ws_break.
    rewrite Hx by (cbn in *; (lia || reflexivity)).
    rewrite skip_ws_break. cbn. reflexivity.
  - change (join (44%N :: 10%N :: spaces k)
              (serialize print_num k x :: map (serialize print_num k) (y :: items)))
      with (serialize print_num k x ++ (44%N :: 10%N :: spaces k)
            ++ join (44%N :: 10%N :: spaces k)
                 (map (serialize print_num k) (y :: items))).
    rewrite <- !app_assoc.
    rewrite (parse_value_ws fuel _
               (serialize print_num k x ++ (44%N :: 10%N :: spaces k)
                ++ join (44%N :: 10%N :: spaces k)
                     (map (serialize print_num k) (y :: items))
                ++ 10%N :: spaces indent ++ 93%N :: rest))
      by apply skip_ws_break.
    rewrite Hx by (cbn in *; (lia || reflexivity)).
    cbn [app skip_ws is_ws N.eqb Pos.eqb orb].
    rewrite IH; [reflexivity | discriminate | assumption |].
    cbn [fold_right] in *. lia.
Qed.

Lemma parse_members_step (fuel k : nat) (key : text) (v : value num)
  (after : text) :
  parse_value parse_num fuel (serialize print_num k v ++ after)
  = Some (v, after) ->
  parse_members parse_num (S fuel)
    (quote key ++ 58%N :: 32%N :: serialize print_num k v ++ after)
  = match skip_ws after with
    | [] => None
    | c :: rest =>
        if (c =? 44)%N then
          match parse_members parse_num fuel rest with
          | Some (ms, rest') => Some ((key, v) :: ms, rest')
          | None => None
          end
        else if (c =? 125)%N then Some ([(key, v)], rest)
        else None
    end.
Proof.
  intros Hv.
  destruct (string_chars_quote key
              (58%N :: 32%N :: serialize print_num k v ++ after))
    as [body [E1 E2]].
  rewrite E1. cbn [parse_members skip_ws is_ws N.eqb Pos.eqb orb].
  rewrite E2. cbn [skip_ws is_ws N.eqb Pos.eqb orb].
  rewrite (parse_value_ws fuel _ (serialize print_num k v ++ after))
    by reflexivity.
  now rewrite Hv.
Qed.

Lemma parse_members_props (k indent : nat) (props : list (text * value num)) :
  props <> [] ->
  Forall (fun kv => forall fuel rest,
            size (snd kv) <= fuel -> delimited rest = true ->
            parse_value parse_num fuel
              (serialize print_num k (snd kv) ++ rest)
            = Some (snd kv, rest)) props ->
  forall fuel rest,
    fold_right (fun kv n => S (size (snd kv) + n)) 0 props <= fuel ->
    parse_members parse_num fuel
      (10%N :: spaces k
       ++ join (44%N :: 10%N :: spaces k)
            (map (fun kv => quote (fst kv) ++ [58%N; 32%N]
                            ++ serialize print_num k (snd kv)) props)
       ++ 10%N :: spaces indent ++ 125%N :: rest)
    = Some (props, rest).
Proof.
  induction props as [| [key x] props IH]; [congruence |].
  intros _ HF fuel rest Hfuel. inversion HF as [| ? ? Hx Hprops]; subst.
  cbn [fold_right snd fst] in *. destruct fuel as [| fuel]; [lia |].
  cbn [map fst snd].
  destruct props as [| y props].
  - cbn [join map].
    rewrite (parse_members_ws (S fuel) _
               (quote key ++ 58%N :: 32%N :: serialize print_num k x
                ++ 10%N :: spaces indent ++ 125%N :: rest)).
    + rewrite parse_members_step by (apply Hx; cbn; (lia || reflexivity)).
      rewrite skip_ws_break. cbn. reflexivity.
    + rewrite skip_ws_break. now rewrite <- !app_assoc.
  - match goal with
    | |- context [join ?sep (?p :: map ?f (y :: props))] =>
        change (join sep (p :: map f (y :: props)))
          with (p ++ sep ++ join sep (map f (y :: props)))
    end.
    rewrite (parse_members_ws (S fuel) _
               (quote key ++ 58%N :: 32%N :: serialize print_num k x
                ++ 44%N :: 10%N :: spaces k
                ++ join (44%N :: 10%N :: spaces k)
                     (map (fun kv => quote (fst kv) ++ [58%N; 32%N]
                                     ++ serialize print_num k (snd kv))
                          (y :: props))
                ++ 10%N :: spaces indent ++ 125%N :: rest)).
    + rewrite parse_members_step by (apply Hx; cbn; (lia || reflexivity)).
      cbn [skip_ws is_ws N.eqb Pos.eqb orb].
      rewrite IH; [reflexivity | discriminate | assumption |].
      cbn [fold_right] in *. lia.
    + rewrite skip_ws_break. now rewrite <- !app_assoc.
Qed.

(** Reading a written value, whatever follows it, gives the value back
    and stops right after it. *)
Lemma parse_value_serialize (v : value num) :
  well_formed v = true ->
  forall indent fuel rest,
    size v <= fuel -> delimited rest = true ->
    parse_value parse_num fuel (serialize print_num indent v ++ rest)
    = Some (v, rest).
Proof.
  induction v as [| b | n | s | items IH | props IH] using value_induction;
    intros Hwf indent fuel rest Hfuel Hrest;
    (destruct fuel as [| fuel]; [cbn in Hfuel; lia |]).
  - reflexivity.
  - destruct b; reflexivity.
  - cbn [serialize]. pose proof (print_token n) as Htok.
    pose proof (parse_print n) as Hnum.
    destruct (print_num n) as [| c tok]; [discriminate Htok |].
    cbn in Htok. apply andb_true_iff in Htok. destruct Htok as [Hc Htok].
    cbn [parse_value app].
    rewrite (skip_ws_stop _ _ (num_start_not_ws c Hc)), Hc.
    change (c :: tok ++ rest) with ((c :: tok) ++ rest).
    rewrite span_num_token; [now rewrite Hnum | | assumption].
    cbn. now rewrite (num_start_char c Hc).
  - cbn [serialize].
    destruct (string_chars_quote s rest) as [body [E1 E2]].
    rewrite E1. cbn. now rewrite E2.
  - destruct items as [| x items]; [reflexivity |].
    cbn [serialize]. rewrite <- !app_assoc. cbn [app].
    destruct (serialize_first x (indent + gap)) as [c [t [E [Hws Hc]]]].
    destruct (join_first (44%N :: 10%N :: spaces (indent + gap))
                (serialize print_num (indent + gap) x)
                (map (serialize print_num (indent + gap)) items) c t E)
      as [t' Ej].
    erewrite parse_value_array; [| | exact Hc].
    + rewrite parse_elements_items; [reflexivity | discriminate | |].
      * cbn [well_formed] in Hwf. rewrite forallb_forall in Hwf.
        rewrite Forall_forall in IH |- *. intros v Hin fuel' rest' Hf Hr.
        now apply IH; [| apply Hwf | |].
      * cbn [size] in Hfuel. lia.
    + rewrite skip_ws_break. cbn [map]. rewrite Ej. cbn [app].
      now apply skip_ws_stop.
  - destruct props as [| [key x] props]; [reflexivity |].
    cbn [well_formed] in Hwf. apply andb_true_iff in Hwf.
    destruct Hwf as [Hkeys Hwf].
    cbn [serialize]. rewrite <- !app_assoc. cbn [app].
    match goal with
    | |- parse_value _ _ (123%N :: ?r) = _ =>
        assert (exists t, skip_ws r = 34%N :: t) as [t Ht]
    end.
    { rewrite skip_ws_break. cbn [map fst]. unfold quote at 1.
      destruct props; cbn [join app]; eexists; now apply skip_ws_stop. }
    rewrite (parse_value_object fuel _ 34%N t Ht) by discriminate.
    rewrite parse_members_props; [| discriminate | |].
    + now rewrite object_of_props.
    + rewrite forallb_forall in Hwf.
      rewrite Forall_forall in IH |- *. intros kv Hin fuel' rest' Hf Hr.
      now apply IH; [| apply Hwf | |].
    + cbn [size] in Hfuel. lia.
Qed.

Lemma join_length (sep : text) (parts : list text) :
  1 <= List.length sep ->
  fold_right (fun p n => S (List.length p + n)) 0 parts
  <= S (List.length (join sep parts)).
Proof.
  intros Hsep. induction parts as [| p parts IH]; cbn [fold_right join].
  - lia.
  - destruct parts as [| q parts].
    + cbn. lia.
    + rewrite !length_app. cbn [fold_right] in *. lia.
Qed.

Lemma sizes_le_lengths (A : Type) (f : A -> nat) (g : A -> text)
  (l : list A) :
  Forall (fun x => f x <= List.length (g x)) l ->
  fold_right (fun x n => S (f x + n)) 0 l
  <= fold_right (fun p n => S (List.length p + n)) 0 (map g l).
Proof.
  induction 1 as [| x l Hx _ IH]; cbn [fold_right map]; lia.
Qed.

(** A written value has at least as many characters as the value has
    nodes, so the bound [parse] starts from is enough. *)
Lemma size_le_length (v : value num) :
  forall indent, size v <= List.length (serialize print_num indent v).
Proof.
  induction v as [| b | n | s | items IH | props IH] using value_induction;
    intros indent.
  - cbn. lia.
  - destruct b; cbn; lia.
  - cbn [size serialize]. pose proof (print_token n) as H.
    destruct (print_num n); [discriminate H | cbn; lia].
  - cbn. lia.
  - destruct items as [| x items]; [cbn; lia |].
    cbn [size serialize].
    set (sep := [44%N; 10%N] ++ spaces (indent + gap)).
    set (parts := map (serialize print_num (indent + gap)) (x :: items)).
    pose proof (join_length sep parts ltac:(cbn; lia)) as Hj.
    assert (fold_right (fun v n => S (size v + n)) 0 (x :: items)
            <= fold_right (fun p n => S (List.length p + n)) 0 parts) as Hs.
    { apply sizes_le_lengths. eapply Forall_impl; [| exact IH].
      intros v Hv. apply Hv. }
    rewrite !length_app. cbn [List.length]. lia.
  - destruct props as [| kx props]; [cbn; lia |].
    cbn [size serialize].
    set (sep := [44%N; 10%N] ++ spaces (indent + gap)).
    set (member := fun kv : text * value num =>
                     quote (fst kv) ++ [58%N; 32%N]
                     ++ serialize print_num (indent + gap) (snd kv)).
    set (parts := map member (kx :: props)).
    pose proof (join_length sep parts ltac:(cbn; lia)) as Hj.
    assert (fold_right (fun kv n => S (size (snd kv) + n)) 0 (kx :: props)
            <= fold_right (fun p n => S (List.length p + n)) 0 parts) as Hs.
    { apply (sizes_le_lengths _ (fun kv => size (snd kv)) member).
      eapply Forall_impl; [| exact IH]. intros kv Hv. unfold member.
      rewrite !length_app. specialize (Hv (indent + gap)). lia. }
    rewrite !length_app. cbn [List.length]. lia.
Qed.

(** [JSON.parse(JSON.stringify(v, null, 2))] is [v]. *)
Lemma parse_stringify (v : value num) :
  well_formed v = true ->
  parse parse_num (stringify print_num v) = Some v.
Proof.
  intros Hwf. unfold parse, stringify.
  pose proof (size_le_length v 0) as Hsize.
  pose proof (parse_value_serialize v Hwf 0
                (S (List.length (serialize print_num 0 v))) []
                ltac:(lia) eq_refl) as H.
  rewrite app_nil_r in H. now rewrite H.
Qed.

(** C5. Exporting a strategy to JSON and importing the file again
    yields the strategy that was exported: the imported value is equal to
    it as a JSON value, so every rule, in the same order, and every
    property with its value, including the ones the editor does not
    know.  This holds for every JSON-serializable strategy (a value whose
    objects have one property per key), whatever the editor held before
    the import, and no alert is raised. *)
Theorem C5_export_import_round_trip (exported current : editor num) :
  well_formed (strategy exported) = true ->
  importJSON parse_num (Some (exportJSON print_num exported)) current
  = mk_editor (strategy exported) (alerts current).
Proof.
  intros Hwf. unfold importJSON, exportJSON.
  now rewrite parse_stringify.
Qed.

End RoundTrip.

End JsonFacts.

(** ** Integers as JSON numbers *)

Module IntegerFacts.

Import IntegerText.

Lemma read_digits_digits (d : Decimal.uint) : read_digits (digits d) = Some d.
Proof. induction d; cbn [digits read_digits]; rewrite ?IHd; reflexivity. Qed.

Lemma digits_num_char (d : Decimal.uint) :
  forallb JSON.num_char (digits d) = true.
Proof. induction d; cbn [digits forallb]; rewrite ?IHd; reflexivity. Qed.

Lemma digits_first (d : Decimal.uint) :
  d <> Decimal.Nil ->
  exists c t, digits d = c :: t /\ JSON.is_digit c = true.
Proof.
  destruct d; intros H; [congruence | ..]; cbn [digits]; eauto.
Qed.

Lemma to_int_nonnil (z : Z) :
  match Z.to_int z with
  | Decimal.Pos d | Decimal.Neg d => d <> Decimal.Nil
  end.
Proof.
  destruct z; cbn; try apply Unsigned.to_uint_nonnil. discriminate.
Qed.

Lemma parse_print (z : Z) : parse (print z) = Some z.
Proof.
  unfold print. pose proof (DecimalZ.of_to z) as Hz.
  pose proof (to_int_nonnil z) as Hd.
  destruct (Z.to_int z) as [d | d];
    destruct (digits_first d Hd) as [c [t [E Hc]]].
  - rewrite E. unfold parse.
    assert ((c =? 45)%N = false) as -> by (clear - Hc; JsonFacts.chars).
    rewrite <- E, read_digits_digits. cbn [option_map]. now rewrite Hz.
  - unfold parse. cbn [N.eqb Pos.eqb]. rewrite E, <- E.
    rewrite read_digits_digits. cbn [option_map]. now rewrite Hz.
Qed.

Lemma print_token (z : Z) : JSON.num_token (print z) = true.
Proof.
  unfold print. pose proof (to_int_nonnil z) as Hd.
  destruct (Z.to_int z) as [d | d].
  - destruct (digits_first d Hd) as [c [t [E Hc]]].
    pose proof (digits_num_char d) as Hall. rewrite E in *.
    cbn in *. apply andb_true_iff in Hall. destruct Hall as [_ Hall].
    rewrite Hall. unfold JSON.num_start. now rewrite Hc, orb_true_r.
  - cbn. apply digits_num_char.
Qed.

End IntegerFacts.

Lemma C5_witness :
  JSON.importJSON IntegerText.parse
    (Some (JSON.exportJSON IntegerText.print
             (JSON.mk_editor IntegerText.strategy [])))
    (JSON.mk_editor JSON.Null ["Invalid JSON file"])
  = JSON.mk_editor IntegerText.strategy ["Invalid JSON file"].
Proof.
  apply (JsonFacts.C5_export_import_round_trip Z IntegerText.print
           IntegerText.parse IntegerFacts.parse_print IntegerFacts.print_token
           (JSON.mk_editor IntegerText.strategy [])
           (JSON.mk_editor JSON.Null ["Invalid JSON file"])).
  reflexivity.
Defined.

(** The sample strategy survives the round trip by computation as well,
    and a file that is not JSON leaves the strategy alone and alerts. *)
Example round_trip_example :
  JSON.parse IntegerText.parse
    (JSON.stringify IntegerText.print IntegerText.strategy)
  = Some IntegerText.strategy.
Proof. vm_compute. reflexivity. Qed.

Example invalid_file_example :
  JSON.importJSON IntegerText.parse (Some (JSON.units "{ rules: [1,] }"))
    (JSON.mk_editor IntegerText.strategy [])
  = JSON.mk_editor IntegerText.strategy ["Invalid JSON file"].
Proof. vm_compute. reflexivity. Qed.

(* ================================================================= *)
(** * Selecting markets (RaceSelector, App) *)

Module SelectFacts.

Import RaceSelector.

Lemma includes_In (l : list string) (id : string) :
  includes l id = true <-> In id l.
Proof.
  unfold includes. rewrite existsb_exists. split.
  - intros [x [Hin Heq]]. apply String.eqb_eq in Heq. now subst.
  - intros H. exists id. split; [assumption | apply String.eqb_refl].
Qed.

Lemma includes_app (l1 l2 : list string) (id : string) :
  includes (l1 ++ l2) id = includes l1 id || includes l2 id.
Proof. apply existsb_app. Qed.

Lemma includes_without (l : list string) (id x : string) :
  includes (filter (fun m => negb (String.eqb m id)) l) x
  = negb (String.eqb x id) && includes l x.
Proof.
  apply Bool.eq_iff_eq_true.
  rewrite andb_true_iff, negb_true_iff, !includes_In, filter_In,
    negb_true_iff.
  tauto.
Qed.

Lemma filter_all (A : Type) (f : A -> bool) (l : list A) :
  (forall x, In x l -> f x = true) -> filter f l = l.
Proof.
  induction l as [| x l IH]; intros H; cbn; [reflexivity |].
  rewrite (H x (or_introl eq_refl)). f_equal. apply IH.
  intros y Hy. apply H. now right.
Qed.

Lemma allMarketIds_In (venues : list venue) (id : string) :
  In id (allMarketIds venues) <->
  exists v m, In v venues /\ In m (markets v) /\ market_id m = id.
Proof.
  unfold allMarketIds. rewrite in_flat_map. split.
  - intros [v [Hv Hin]]. apply in_map_iff in Hin.
    destruct Hin as [m [Hm Hin]]. eauto.
  - intros [v [m [Hv [Hm Hid]]]]. exists v. split; [assumption |].
    apply in_map_iff. eauto.
Qed.

End SelectFacts.

(** X1. Ticking a market's box flips that market in the selection and
    touches no other: afterwards the market is selected exactly when it
    was not before, every other market is selected exactly when it was,
    and a selection without repetitions stays without repetitions. *)
Theorem toggleMarket_flips_one (selectedMarkets : list string) (id : string) :
  (forall x,
     RaceSelector.includes (RaceSelector.toggleMarket selectedMarkets id) x
     = if String.eqb x id
       then negb (RaceSelector.includes selectedMarkets id)
       else RaceSelector.includes selectedMarkets x) /\
  (NoDup selectedMarkets ->
   NoDup (RaceSelector.toggleMarket selectedMarkets id)).
Proof.
  unfold RaceSelector.toggleMarket. split.
  - intros x.
    destruct (RaceSelector.includes selectedMarkets id) eqn:E.
    + rewrite SelectFacts.includes_without.
      destruct (String.eqb x id); reflexivity.
    + rewrite SelectFacts.includes_app.
      destruct (String.eqb_spec x id) as [-> | Hne].
      * cbn. rewrite String.eqb_refl. now rewrite orb_true_r.
      * cbn. apply String.eqb_neq in Hne. rewrite Hne.
        now rewrite !orb_false_r.
  - intros Hnd. destruct (RaceSelector.includes selectedMarkets id) eqn:E.
    + now apply NoDup_filter.
    + apply NoDup_app; [assumption | repeat constructor; intros [] |].
      intros x Hx [<- | []]. apply SelectFacts.includes_In in Hx. congruence.
Qed.

Lemma toggleMarket_flips_one_witness :
  RaceSelector.includes
    (RaceSelector.toggleMarket ["1.101"; "1.102"] "1.102") "1.102" = false
  /\ NoDup (RaceSelector.toggleMarket ["1.101"; "1.102"] "1.103").
Proof.
  destruct (toggleMarket_flips_one ["1.101"; "1.102"] "1.102") as [H _].
  destruct (toggleMarket_flips_one ["1.101"; "1.102"] "1.103") as [_ Hnd].
  split; [exact (H "1.102") |].
  apply Hnd. repeat constructor; cbn; intuition discriminate.
Defined.

(** X2. Ticking a box and unticking it again gives the selection back
    as it was, in the same order, when the market was not selected to
    begin with; in every case two ticks leave every market selected
    exactly when it was. *)
Theorem toggleMarket_twice (selectedMarkets : list string) (id : string) :
  (RaceSelector.includes selectedMarkets id = false ->
   RaceSelector.toggleMarket (RaceSelector.toggleMarket selectedMarkets id) id
   = selectedMarkets) /\
  (forall x,
     RaceSelector.includes
       (RaceSelector.toggleMarket
          (RaceSelector.toggleMarket selectedMarkets id) id) x
     = RaceSelector.includes selectedMarkets x).
Proof.
  split.
  - intros E. unfold RaceSelector.toggleMarket at 2. rewrite E.
    unfold RaceSelector.toggleMarket.
    rewrite SelectFacts.includes_app. cbn. rewrite String.eqb_refl.
    rewrite orb_true_r, filter_app. cbn. rewrite String.eqb_refl. cbn.
    rewrite app_nil_r. apply SelectFacts.filter_all. intros x Hx.
    apply negb_true_iff. apply String.eqb_neq. intros ->.
    apply SelectFacts.includes_In in Hx. congruence.
  - intros x.
    rewrite (proj1 (toggleMarket_flips_one _ id) x).
    rewrite (proj1 (toggleMarket_flips_one selectedMarkets id) id).
    rewrite (proj1 (toggleMarket_flips_one selectedMarkets id) x).
    rewrite String.eqb_refl.
    destruct (String.eqb_spec x id) as [-> | Hne];
      [now rewrite negb_involutive | reflexivity].
Qed.

Lemma toggleMarket_twice_witness :
  RaceSelector.toggleMarket
    (RaceSelector.toggleMarket ["1.101"; "1.102"] "1.103") "1.103"
  = ["1.101"; "1.102"].
Proof.
  exact (proj1 (toggleMarket_twice ["1.101"; "1.102"] "1.103") eq_refl).
Defined.

(** X3. When the markets of a date arrive, the date is taken over, the
    results are cleared, the strategy is kept, and every market of every
    venue is selected, so the selector shows all boxes ticked and "M of M
    selected"; a listing without venues selects nothing. *)
Theorem onMarketsLoaded_selects_all
  (date : string) (data : Loading.markets_data) (w : App.world) :
  let w' := Loading.onMarketsLoaded date data w in
  App.selectedDate (App.app w') = date /\
  App.results (App.app w') = None /\
  App.strategy (App.app w') = App.strategy (App.app w) /\
  App.sent w' = App.sent w /\
  (Loading.venues data = None -> App.selectedMarkets (App.app w') = []) /\
  (forall venues,
     Loading.venues data = Some venues ->
     App.selectedMarkets (App.app w') = RaceSelector.selectAll venues /\
     (forall v m,
        In v venues -> In m (RaceSelector.markets v) ->
        RaceSelector.includes (App.selectedMarkets (App.app w'))
          (RaceSelector.market_id m) = true) /\
     fst (RaceSelector.counter (App.selectedMarkets (App.app w')) venues)
     = snd (RaceSelector.counter (App.selectedMarkets (App.app w')) venues)).
Proof.
  cbn. do 4 (split; [reflexivity |]). split.
  - intros ->. reflexivity.
  - intros vs ->. split; [reflexivity |]. split; [| reflexivity].
    intros v m Hv Hm. apply SelectFacts.includes_In.
    apply SelectFacts.allMarketIds_In. eauto.
Qed.

(** X4. A run started right after the markets of a date arrived asks
    for that date and for exactly the markets of the listing, in listing
    order; when the listing has no market at all the request carries
    [null], which stands for all markets. *)
Theorem run_after_markets_loaded
  (server : App.engine) (date : string) (data : Loading.markets_data)
  (w : App.world) (strat : Strategy.t) :
  date <> "" ->
  App.strategy (App.app w) = Some strat ->
  App.sent (App.handleRun server (Loading.onMarketsLoaded date data w))
  = App.sent w
    ++ [App.mk_request date strat
          (match RaceSelector.allMarketIds
                   (match Loading.venues data with
                    | Some vs => vs
                    | None => []
                    end) with
           | [] => None
           | id :: ids => Some (id :: ids)
           end)].
Proof.
  intros Hd Hs. unfold App.handleRun, App.runSimulation.
  cbn. rewrite Hs. destruct date as [| c date]; [congruence |]. cbn.
  destruct (RaceSelector.allMarketIds _); cbn;
    destruct (server _); reflexivity.
Qed.

Lemma run_after_markets_loaded_witness :
  App.sent
    (App.handleRun Sample.answering
       (Loading.onMarketsLoaded "2024-05-01"
          (Loading.mk_data
             (Some [RaceSelector.mk_venue "Ascot"
                      [RaceSelector.mk_market "1.101" "2m Hcap" "" None]])
             None None)
          (Sample.world (Sample.state "" [] (Some Sample.strategy)))))
  = [App.mk_request "2024-05-01" Sample.strategy (Some ["1.101"])].
Proof.
  apply (run_after_markets_loaded Sample.answering "2024-05-01"
           (Loading.mk_data
              (Some [RaceSelector.mk_venue "Ascot"
                       [RaceSelector.mk_market "1.101" "2m Hcap" "" None]])
              None None)
           (Sample.world (Sample.state "" [] (Some Sample.strategy)))
           Sample.strategy);
    [discriminate | reflexivity].
Defined.

(* ================================================================= *)
(** * Editing rules (StrategyEditor, RuleCard) *)

Module EditFacts.


Lemma remove_at_In (A : Type) (l : list A) :
  forall k x, In x (JsArray.remove_at l k) -> In x l.
Proof.
  induction l as [| y l IH]; intros [| k] x H; cbn in *; try tauto.
  destruct H as [-> | H]; [now left | right; eauto].
Qed.


Lemma remove_at_past (A : Type) (l : list A) :
  forall k, List.length l <= k -> JsArray.remove_at l k = l.
Proof.
  induction l as [| x l IH]; intros [| k] H; cbn in *; try reflexivity;
    try lia.
  rewrite IH; [reflexivity | lia].
Qed.

Lemma remove_at_last (A : Type) (l : list A) (x : A) :
  JsArray.remove_at (l ++ [x]) (List.length l) = l.
Proof. induction l as [| y l IH]; cbn; [reflexivity | now rewrite IH]. Qed.


Lemma sorted_snoc (l : list Rule.t) (x : Rule.t) :
  StronglySorted Spec.priority_le l ->
  (forall r, In r l -> Spec.priority_le r x) ->
  StronglySorted Spec.priority_le (l ++ [x]).
Proof.
  induction l as [| y l IH]; intros Hs Hx; cbn.
  - repeat constructor.
  - inversion Hs as [| ? ? Hl Hy]; subst. constructor.
    + apply IH; [assumption |]. intros r Hr. apply Hx. now right.
    + apply Forall_app. split; [assumption |]. constructor; [| constructor].
      apply Hx. now left.
Qed.




End EditFacts.





(** X6. Editing the card at position [k] replaces, in the stored
    strategy, the rule that card shows and no other: the index the card
    passes to [updateRule] addresses its own rule in the list as the
    render left it. *)
Theorem updateRule_replaces_shown
  (strategy : Strategy.t) (k : nat) (c : StrategyEditor.card)
  (updated : Rule.t) :
  nth_error (snd (StrategyEditor.render strategy)) k = Some c ->
  let shown := fst (StrategyEditor.render strategy) in
  nth_error (Strategy.rules shown) (StrategyEditor.index c)
  = Some (StrategyEditor.rule c) /\
  exists after,
    StrategyEditor.updateRule shown (StrategyEditor.index c) updated
    = Some after
    /\ nth_error (Strategy.rules after) (StrategyEditor.index c) = Some updated
    /\ (forall j, j <> StrategyEditor.index c ->
          nth_error (Strategy.rules after) j
          = nth_error (Strategy.rules shown) j)
    /\ Strategy.id after = Strategy.id strategy
    /\ Strategy.name after = Strategy.name strategy.
Proof.
  intros H shown.
  destruct (SortFacts.update_shown_rule strategy k c updated H)
    as [Hshown [after [Hup [Hnew Hother]]]].
  split; [exact Hshown |]. exists after.
  split; [exact Hup |]. split; [exact Hnew |]. split; [exact Hother |].
  unfold StrategyEditor.updateRule in Hup.
  destruct (JsArray.set _ _ _); [| discriminate].
  cbn in Hup. injection Hup as <-. split; reflexivity.
Qed.

Lemma updateRule_replaces_shown_witness :
  nth_error (Strategy.rules (fst (StrategyEditor.render Sample.strategy))) 2
  = Some (Sample.rule "C" 2).
Proof.
  exact (proj1 (updateRule_replaces_shown Sample.strategy 2
                  (StrategyEditor.mk_card "C" (Sample.rule "C" 2) 2)
                  (Sample.rule "Z" 9) eq_refl)).
Defined.

Module AddFacts.

Lemma string_of_uint_inj (d d' : Decimal.uint) :
  NilEmpty.string_of_uint d = NilEmpty.string_of_uint d' -> d = d'.
Proof.
  intros H. pose proof (NilEmpty.usu d) as H1.
  pose proof (NilEmpty.usu d') as H2. congruence.
Qed.

Lemma rule_id_inj (a b : N) : Editor.rule_id a = Editor.rule_id b -> a = b.
Proof.
  unfold Editor.rule_id. cbn. intros H. injection H as H.
  apply Unsigned.to_uint_inj. now apply string_of_uint_inj.
Qed.

(** The strategy got by pressing "Add New Rule" at the given times. *)
Lemma add_all_rules (nows : list N) :
  forall strategy,
    Strategy.rules (fold_left (fun s now => Editor.addRule now s) nows strategy)
    = Strategy.rules strategy
      ++ map (fun p => Rule.mk (Editor.rule_id (fst p)) "New Rule"
                         (Z.of_nat (snd p) + 1)%Z
                         [RuleCard.new_condition] [RuleCard.new_action] true)
             (combine nows
                (seq (List.length (Strategy.rules strategy))
                     (List.length nows))).
Proof.
  induction nows as [| now nows IH]; intros strategy; cbn [fold_left].
  - cbn. now rewrite app_nil_r.
  - rewrite IH. cbn [Editor.addRule Strategy.rules].
    rewrite length_app, <- app_assoc. cbn [List.length app].
    rewrite Nat.add_1_r. reflexivity.
Qed.

Lemma priorities_of_added (nows : list N) :
  forall start,
    map Rule.priority
      (map (fun p => Rule.mk (Editor.rule_id (fst p)) "New Rule"
                       (Z.of_nat (snd p) + 1)%Z
                       [RuleCard.new_condition] [RuleCard.new_action] true)
           (combine nows (seq start (List.length nows))))
    = map (fun i => Z.of_nat i + 1)%Z (seq start (List.length nows)).
Proof.
  induction nows as [| now nows IH]; intros start; cbn; [reflexivity |].
  now rewrite IH.
Qed.

Lemma ids_of_added (nows : list N) :
  forall start,
    map Rule.id
      (map (fun p => Rule.mk (Editor.rule_id (fst p)) "New Rule"
                       (Z.of_nat (snd p) + 1)%Z
                       [RuleCard.new_condition] [RuleCard.new_action] true)
           (combine nows (seq start (List.length nows))))
    = map Editor.rule_id nows.
Proof.
  induction nows as [| now nows IH]; intros start; [reflexivity |].
  cbn [List.length seq combine map Rule.id fst]. now rewrite IH.
Qed.

Lemma render_fixed (s : Strategy.t) :
  JsArray.sort StrategyEditor.by_priority (Strategy.rules s) = Strategy.rules s ->
  fst (StrategyEditor.render s) = s.
Proof.
  destruct s as [id name rules]. unfold StrategyEditor.render. cbn.
  now intros ->.
Qed.

(** Stored in ascending order with no priority above the number of
    rules: an invariant of "Add New Rule". *)
Lemma addRule_keeps_order (now : N) (s : Strategy.t) :
  Sorted Spec.priority_le (Strategy.rules s) ->
  (forall r, In r (Strategy.rules s) ->
     (Rule.priority r <= Z.of_nat (List.length (Strategy.rules s)))%Z) ->
  Sorted Spec.priority_le (Strategy.rules (Editor.addRule now s)) /\
  (forall r, In r (Strategy.rules (Editor.addRule now s)) ->
     (Rule.priority r
      <= Z.of_nat (List.length (Strategy.rules (Editor.addRule now s))))%Z).
Proof.
  intros Hs Hb. cbn [Editor.addRule Strategy.rules]. split.
  - apply StronglySorted_Sorted. apply EditFacts.sorted_snoc.
    + apply Sorted_StronglySorted;
        [exact SortFacts.priority_le_trans | exact Hs].
    + intros r Hr. apply Hb in Hr. unfold Spec.priority_le. cbn. lia.
  - intros r Hr. rewrite length_app. cbn [List.length].
    apply in_app_or in Hr. destruct Hr as [Hr | [<- | []]].
    + apply Hb in Hr. lia.
    + cbn. lia.
Qed.

Lemma NoDup_snoc (A : Type) (l : list A) (x : A) :
  NoDup (l ++ [x]) <-> NoDup l /\ ~ In x l.
Proof.
  split.
  - intros H.
    apply (Permutation_NoDup (Permutation_sym (Permutation_cons_append l x)))
      in H.
    apply NoDup_cons_iff in H. tauto.
  - intros [H1 H2].
    apply (Permutation_NoDup (Permutation_cons_append l x)).
    now constructor.
Qed.

End AddFacts.

(** X8. Pressing "Add New Rule" any number of times keeps a strategy
    in order: if the rules were stored in ascending priority with no
    priority above their number, they still are afterwards, the rules
    that were there are untouched, the new ones follow with the next
    priorities in the order they were added, and rendering the editor
    does not change the stored strategy. *)
Theorem added_rules_keep_order (nows : list N) (strategy : Strategy.t) :
  Sorted Spec.priority_le (Strategy.rules strategy) ->
  (forall r, In r (Strategy.rules strategy) ->
     (Rule.priority r <= Z.of_nat (List.length (Strategy.rules strategy)))%Z) ->
  let after := fold_left (fun s now => Editor.addRule now s) nows strategy in
  Sorted Spec.priority_le (Strategy.rules after) /\
  fst (StrategyEditor.render after) = after /\
  firstn (List.length (Strategy.rules strategy)) (Strategy.rules after)
  = Strategy.rules strategy /\
  map Rule.priority
    (skipn (List.length (Strategy.rules strategy)) (Strategy.rules after))
  = map (fun i => Z.of_nat i + 1)%Z
        (seq (List.length (Strategy.rules strategy)) (List.length nows)) /\
  map Rule.id
    (skipn (List.length (Strategy.rules strategy)) (Strategy.rules after))
  = map Editor.rule_id nows.
Proof.
  intros Hs Hb after.
  assert (Sorted Spec.priority_le (Strategy.rules after)) as Hsorted.
  { subst after. revert strategy Hs Hb.
    induction nows as [| now nows IH]; intros strategy Hs Hb; cbn [fold_left].
    - exact Hs.
    - destruct (AddFacts.addRule_keeps_order now strategy Hs Hb).
      now apply IH. }
  split; [exact Hsorted |].
  split; [apply AddFacts.render_fixed, SortFacts.sort_sorted_id, Hsorted |].
  subst after. rewrite AddFacts.add_all_rules.
  rewrite firstn_app, Nat.sub_diag, firstn_all, skipn_app, Nat.sub_diag,
    skipn_all. cbn [firstn skipn app]. rewrite app_nil_r.
  split; [reflexivity |]. split; [apply AddFacts.priorities_of_added |].
  apply AddFacts.ids_of_added.
Qed.

Lemma added_rules_keep_order_witness :
  let after :=
    fold_left (fun s now => Editor.addRule now s) [5; 9; 9]%N
      (Strategy.mk "S" "New" []) in
  map Rule.priority (Strategy.rules after) = [1; 2; 3]%Z /\
  fst (StrategyEditor.render after) = after.
Proof.
  destruct (added_rules_keep_order [5; 9; 9]%N (Strategy.mk "S" "New" []))
    as [_ [H2 [_ [H4 _]]]].
  - constructor.
  - intros r [].
  - split; [exact H4 | exact H2].
Defined.

(** X9. The id of an added rule is [RULE_] followed by the time in
    milliseconds, so two rules added at different times get different
    ids; adding a rule keeps the ids of the strategy distinct exactly
    when no stored rule has that id already; and two rules added within
    the same millisecond have the same id. *)
Theorem addRule_ids (now : N) (strategy : Strategy.t) :
  (forall other, Editor.rule_id now = Editor.rule_id other <-> now = other) /\
  (NoDup (map Rule.id (Strategy.rules (Editor.addRule now strategy)))
   <-> NoDup (map Rule.id (Strategy.rules strategy))
       /\ ~ In (Editor.rule_id now) (map Rule.id (Strategy.rules strategy))) /\
  ~ NoDup (map Rule.id
             (Strategy.rules (Editor.addRule now (Editor.addRule now strategy)))).
Proof.
  split; [| split].
  - intros other. split; [apply AddFacts.rule_id_inj | now intros ->].
  - cbn [Editor.addRule Strategy.rules]. rewrite map_app. cbn [map Rule.id].
    apply AddFacts.NoDup_snoc.
  - cbn [Editor.addRule Strategy.rules]. rewrite !map_app. cbn [map Rule.id].
    rewrite AddFacts.NoDup_snoc. intros [_ H]. apply H.
    apply in_or_app. right. now left.
Qed.

(** Two presses in the same millisecond, from an empty strategy. *)
Example same_millisecond_example :
  map Rule.id
    (Strategy.rules
       (Editor.addRule 1700000000000
          (Editor.addRule 1700000000000 (Strategy.mk "S" "New" []))))
  = ["RULE_1700000000000"; "RULE_1700000000000"].
Proof. reflexivity. Qed.

(** X10. The priority box stores the integer that was typed when that
    is not zero, and 1 when the box is empty or holds 0, so it never
    stores zero.  It does not keep the priority at 1 or above: the stored
    priority is below 1 exactly when a negative integer was typed.
    Nothing else of the rule changes. *)
Theorem priority_onChange_never_zero (rule : Rule.t) (parsed : option Z) :
  let rule' := RuleCard.priority_onChange rule parsed in
  (forall z, parsed = Some z -> z <> 0%Z -> Rule.priority rule' = z) /\
  (parsed = None \/ parsed = Some 0%Z -> Rule.priority rule' = 1%Z) /\
  Rule.priority rule' <> 0%Z /\
  ((Rule.priority rule' < 1)%Z <->
   exists z, parsed = Some z /\ (z < 0)%Z) /\
  Rule.id rule' = Rule.id rule /\
  Rule.name rule' = Rule.name rule /\
  Rule.conditions rule' = Rule.conditions rule /\
  Rule.actions rule' = Rule.actions rule /\
  Rule.stop_on_match rule' = Rule.stop_on_match rule.
Proof.
  cbn. split; [| split; [| split; [| split; [| repeat split]]]].
  - intros z -> Hz. apply Z.eqb_neq in Hz. now rewrite Hz.
  - intros [-> | ->]; reflexivity.
  - destruct parsed as [z |]; [| discriminate].
    destruct (Z.eqb_spec z 0); [discriminate | assumption].
  - destruct parsed as [z |].
    + destruct (Z.eqb_spec z 0) as [-> | Hz]; split.
      * lia.
      * intros [z [E Hneg]]. injection E as <-. lia.
      * intros H. exists z. split; [reflexivity | lia].
      * intros [z' [E Hneg]]. injection E as <-. lia.
    + split; [lia |]. intros [z [E _]]. discriminate E.
Qed.

(** A typed 7 is stored as 7, a cleared box as 1. *)
Example priority_examples :
  Rule.priority (RuleCard.priority_onChange (Sample.rule "A" 1) (Some 7%Z))
  = 7%Z
  /\ Rule.priority (RuleCard.priority_onChange (Sample.rule "A" 3) None)
     = 1%Z.
Proof. split; reflexivity. Qed.

(* ================================================================= *)
(** * The editor never stores NaN *)

Module NumberFacts.

Import Editor.

Lemma or_else_not_nan (parsed : float) :
  is_nan (Js.or_else parsed 0%float) = false.
Proof.
  unfold Js.or_else. destruct (Js.truthy parsed) eqn:E.
  - now apply FloatFacts.truthy_not_nan.
  - reflexivity.
Qed.

Lemma forallb_set (A : Type) (f : A -> bool) (l : list A) :
  forall i v l',
    forallb f l = true -> f v = true -> JsArray.set l i v = Some l' ->
    forallb f l' = true.
Proof.
  induction l as [| x l IH]; intros [| i] v l' Hl Hv H; cbn in *;
    try discriminate.
  - injection H as <-. apply andb_true_iff in Hl. cbn.
    now rewrite Hv, (proj2 Hl).
  - apply andb_true_iff in Hl. destruct Hl as [Hx Hl].
    destruct (JsArray.set l i v) as [l0 |] eqn:E; [| discriminate].
    cbn in H. injection H as <-. cbn. rewrite Hx. eapply IH; eauto.
Qed.

Lemma forallb_remove_at (A : Type) (f : A -> bool) (l : list A) (k : nat) :
  forallb f l = true -> forallb f (JsArray.remove_at l k) = true.
Proof.
  rewrite !forallb_forall. intros H x Hx. apply H.
  eapply EditFacts.remove_at_In. exact Hx.
Qed.

Lemma forallb_snoc (A : Type) (f : A -> bool) (l : list A) (x : A) :
  forallb f l = true -> f x = true -> forallb f (l ++ [x]) = true.
Proof. intros Hl Hx. rewrite forallb_app, Hl. cbn. now rewrite Hx. Qed.

Lemma forallb_nth (A : Type) (f : A -> bool) (l : list A) (i : nat) (x : A) :
  forallb f l = true -> nth_error l i = Some x -> f x = true.
Proof.
  rewrite forallb_forall. intros H E. apply H. eapply nth_error_In. exact E.
Qed.

Lemma forallb_sort (f : Rule.t -> bool) (l : list Rule.t) :
  forallb f l = true ->
  forallb f (JsArray.sort StrategyEditor.by_priority l) = true.
Proof.
  rewrite !forallb_forall. intros H x Hx. apply H.
  eapply Permutation_in; [apply SortFacts.sort_perm | exact Hx].
Qed.

Lemma condition_row_ok (c : Condition.t) (e : condition_event) :
  condition_ok c = true -> condition_ok (on_condition_row c e) = true.
Proof.
  unfold condition_ok. intros H. apply andb_true_iff in H.
  destruct H as [Hv Hh]. destruct e; cbn.
  - now rewrite Hv, Hh.
  - now rewrite Hv, Hh.
  - now rewrite or_else_not_nan, Hh.
  - now rewrite Hv, or_else_not_nan.
Qed.

Lemma action_row_ok (a : Action.t) (e : action_event) :
  action_ok a = true -> action_ok (on_action_row a e) = true.
Proof.
  unfold action_ok. intros H. destruct e; cbn; try exact H.
  now rewrite or_else_not_nan.
Qed.

Lemma rule_card_ok (r r' : Rule.t) (e : rule_event) :
  rule_ok r = true -> on_rule_card r e = Some r' -> rule_ok r' = true.
Proof.
  unfold rule_ok. intros H. apply andb_true_iff in H.
  destruct H as [Hc Ha]. destruct e; cbn.
  - intros E. injection E as <-. cbn. now rewrite Hc, Ha.
  - intros E. injection E as <-. cbn. now rewrite Hc, Ha.
  - intros E. injection E as <-. cbn. now rewrite Hc, Ha.
  - destruct (nth_error (Rule.conditions r) index) as [c |] eqn:En;
      [| discriminate].
    unfold RuleCard.updateCondition.
    destruct (JsArray.set _ _ _) as [cs |] eqn:Es; [| discriminate].
    cbn. intros E. injection E as <-. cbn. rewrite Ha, andb_true_r.
    eapply forallb_set; [exact Hc | | exact Es].
    apply condition_row_ok. eapply forallb_nth; eauto.
  - destruct (nth_error (Rule.conditions r) index); [| discriminate].
    intros E. injection E as <-. cbn. rewrite Ha, andb_true_r.
    now apply forallb_remove_at.
  - intros E. injection E as <-. cbn. rewrite Ha, andb_true_r.
    now apply forallb_snoc.
  - destruct (nth_error (Rule.actions r) index) as [a |] eqn:En;
      [| discriminate].
    unfold RuleCard.updateAction.
    destruct (JsArray.set _ _ _) as [acts |] eqn:Es; [| discriminate].
    cbn. intros E. injection E as <-. cbn. rewrite Hc. cbn.
    eapply forallb_set; [exact Ha | | exact Es].
    apply action_row_ok. eapply forallb_nth; eauto.
  - destruct (nth_error (Rule.actions r) index); [| discriminate].
    intros E. injection E as <-. cbn. rewrite Hc. cbn.
    now apply forallb_remove_at.
  - intros E. injection E as <-. cbn. rewrite Hc. cbn.
    now apply forallb_snoc.
Qed.

End NumberFacts.

(** X11. Whatever the operator does in the editor, no NaN gets into the
    strategy: if no stake, value or upper bound of the strategy is NaN
    before an event (typing in any box, choosing from any list, adding or
    deleting a condition, an action or a rule, renaming), none is
    afterwards. *)
Theorem editor_keeps_numbers
  (strategy after : Strategy.t) (ev : Editor.event) :
  Editor.numbers_ok strategy = true ->
  Editor.handle strategy ev = Some after ->
  Editor.numbers_ok after = true.
Proof.
  unfold Editor.numbers_ok, Editor.handle, StrategyEditor.render.
  cbv beta iota zeta. intros Hok.
  apply NumberFacts.forallb_sort in Hok.
  set (sorted := JsArray.sort StrategyEditor.by_priority
                   (Strategy.rules strategy)) in *.
  destruct ev as [val | index e | index | now].
  - intros E. injection E as <-. exact Hok.
  - rewrite SortFacts.cards_from_nth.
    destruct (nth_error sorted index) as [r |] eqn:En; [| discriminate].
    cbn [option_map StrategyEditor.rule StrategyEditor.index].
    destruct (Editor.on_rule_card r e) as [updated |] eqn:Eu; [| discriminate].
    unfold StrategyEditor.updateRule. cbn [Strategy.rules Nat.add].
    destruct (JsArray.set sorted index updated) as [l |] eqn:Es;
      [| cbn; discriminate].
    cbn. intros E. injection E as <-. cbn.
    eapply NumberFacts.forallb_set; [exact Hok | | exact Es].
    eapply NumberFacts.rule_card_ok; [| exact Eu].
    eapply NumberFacts.forallb_nth; eauto.
  - rewrite SortFacts.cards_from_nth.
    destruct (nth_error sorted index) as [r |]; [| discriminate].
    cbn. intros E. injection E as <-. cbn.
    now apply NumberFacts.forallb_remove_at.
  - intros E. injection E as <-. cbn.
    now apply NumberFacts.forallb_snoc.
Qed.

Lemma editor_keeps_numbers_witness :
  exists after,
    Editor.handle Sample.strategy
      (Editor.on_rule 0
         (Editor.on_action 0 (Editor.type_stake nan)))
    = Some after
    /\ Editor.numbers_ok after = true.
Proof.
  eexists. split; [reflexivity |].
  apply (editor_keeps_numbers Sample.strategy _
           (Editor.on_rule 0 (Editor.on_action 0 (Editor.type_stake nan))));
    reflexivity.
Defined.

(** X12. Typing a stake in the [i]-th action row of the [k]-th card
    changes that one stake and nothing else of the strategy: the rule
    shown by the card keeps its id, name, priority, conditions and stop
    flag, its other actions are untouched, the edited action keeps its
    target and bet type and gets the typed number (0 for an empty box),
    and every other rule stays as displayed. *)
Theorem stake_edit_changes_one_stake
  (strategy : Strategy.t) (k i : nat) (parsed : float)
  (c : StrategyEditor.card) (a : Action.t) :
  nth_error (snd (StrategyEditor.render strategy)) k = Some c ->
  nth_error (Rule.actions (StrategyEditor.rule c)) i = Some a ->
  exists after r',
    Editor.handle strategy
      (Editor.on_rule k (Editor.on_action i (Editor.type_stake parsed)))
    = Some after
    /\ nth_error (Strategy.rules after) k = Some r'
    /\ nth_error (Rule.actions r') i
       = Some (Action.mk (Action.target a) (Action.bet_type a)
                 (Js.or_else parsed 0%float))
    /\ (forall j, j <> i ->
          nth_error (Rule.actions r') j
          = nth_error (Rule.actions (StrategyEditor.rule c)) j)
    /\ Rule.conditions r' = Rule.conditions (StrategyEditor.rule c)
    /\ Rule.priority r' = Rule.priority (StrategyEditor.rule c)
    /\ Rule.id r' = Rule.id (StrategyEditor.rule c)
    /\ Rule.name r' = Rule.name (StrategyEditor.rule c)
    /\ Rule.stop_on_match r' = Rule.stop_on_match (StrategyEditor.rule c)
    /\ (forall j, j <> k ->
          nth_error (Strategy.rules after) j
          = nth_error (Strategy.rules (fst (StrategyEditor.render strategy))) j).
Proof.
  intros Hc Ha.
  assert (i < List.length (Rule.actions (StrategyEditor.rule c))) as Hi
      by (apply nth_error_Some; congruence).
  destruct (SortFacts.set_spec _ (Rule.actions (StrategyEditor.rule c)) i
              (ActionRow.stake_onChange a parsed) Hi)
    as [acts [Hset [Hnew Hother]]].
  assert (StrategyEditor.index c = k) as Hk.
  { unfold StrategyEditor.render in Hc. cbn [snd] in Hc.
    rewrite SortFacts.cards_from_nth in Hc.
    destruct (nth_error _ k); [| discriminate]. cbn in Hc.
    now injection Hc as <-. }
  destruct (SortFacts.update_shown_rule strategy k c
              (RuleCard.update (StrategyEditor.rule c) (RuleCard.actions acts))
              Hc)
    as [_ [after [Hup [Hk' Hrest]]]].
  rewrite Hk in *.
  exists after, (RuleCard.update (StrategyEditor.rule c) (RuleCard.actions acts)).
  split.
  { unfold Editor.handle.
    destruct (StrategyEditor.render strategy) as [shown cards] eqn:Er.
    cbn [fst snd] in *. rewrite Hc. cbn [Editor.on_rule_card].
    rewrite Ha. unfold RuleCard.updateAction. cbn [Editor.on_action_row].
    rewrite Hset. cbn [option_map]. rewrite Hk. exact Hup. }
  split; [exact Hk' |]. cbn [RuleCard.update Rule.actions Rule.conditions
                             Rule.priority Rule.id Rule.name Rule.stop_on_match].
  split; [exact Hnew |]. split; [exact Hother |].
  repeat (split; [reflexivity |]). exact Hrest.
Qed.

Lemma stake_edit_changes_one_stake_witness :
  exists after r',
    Editor.handle Sample.strategy
      (Editor.on_rule 1 (Editor.on_action 0 (Editor.type_stake 2.5%float)))
    = Some after
    /\ nth_error (Strategy.rules after) 1 = Some r'
    /\ nth_error (Rule.actions r') 0
       = Some (Action.mk "favourite" "LAY" 2.5%float).
Proof.
  destruct (stake_edit_changes_one_stake Sample.strategy 1 0 2.5%float
              (StrategyEditor.mk_card "B" (Sample.rule "B" 1) 1)
              Sample.action eq_refl eq_refl)
    as [after [r' [H1 [H2 [H3 _]]]]].
  exists after, r'. split; [exact H1 |]. split; [exact H2 | exact H3].
Defined.

(** X13. In a rule card, adding a condition and deleting the last row
    gives the rule back as it was, and so does adding and deleting an
    action; adding one leaves the existing rows in place and puts the
    starting condition ([fav_lay_odds < 2]) or action (LAY the favourite
    for 1) last. *)
Theorem add_then_delete_row (rule : Rule.t) :
  RuleCard.deleteCondition (RuleCard.addCondition rule)
    (List.length (Rule.conditions rule)) = rule /\
  RuleCard.deleteAction (RuleCard.addAction rule)
    (List.length (Rule.actions rule)) = rule /\
  Rule.conditions (RuleCard.addCondition rule)
  = Rule.conditions rule ++ [Condition.mk "fav_lay_odds" "lt" 2%float None] /\
  Rule.actions (RuleCard.addAction rule)
  = Rule.actions rule ++ [Action.mk "favourite" "LAY" 1%float] /\
  Rule.actions (RuleCard.addCondition rule) = Rule.actions rule /\
  Rule.conditions (RuleCard.addAction rule) = Rule.conditions rule.
Proof.
  destruct rule as [id name priority conditions actions stop].
  unfold RuleCard.deleteCondition, RuleCard.deleteAction,
    RuleCard.addCondition, RuleCard.addAction. cbn.
  rewrite !EditFacts.remove_at_last. repeat split.
Qed.

(** X14. The upper-bound box of a [between] condition shows what was
    typed only when that is a number other than zero.  After typing 0 (or
    clearing the box) the stored upper bound is 0 and the box is empty;
    the stored bound is never NaN. *)
Theorem value_high_box_after_typing (condition : Condition.t) (parsed : float) :
  let condition' := ConditionRow.value_high_onChange condition parsed in
  Condition.value_high condition'
  = Some (if Js.truthy parsed then parsed else 0%float) /\
  ConditionRow.value_high_box condition'
  = (if Js.truthy parsed then Some parsed else None) /\
  (exists h, Condition.value_high condition' = Some h /\ is_nan h = false) /\
  Condition.value condition' = Condition.value condition /\
  Condition.field condition' = Condition.field condition /\
  Condition.operator condition' = Condition.operator condition.
Proof.
  cbn. unfold ConditionRow.value_high_box, Js.or_else. cbn.
  destruct (Js.truthy parsed) eqn:E.
  - rewrite E. repeat split. exists parsed.
    split; [reflexivity | now apply FloatFacts.truthy_not_nan].
  - repeat split. exists 0%float. split; reflexivity.
Qed.

(* ================================================================= *)
(** * What the results panel shows and when it fails *)

Module PanelFacts.

Lemma nan_compares_false (x : float) :
  is_nan x = true ->
  (0 <? x)%float = false /\ (x <? 0)%float = false
  /\ (0 <=? x)%float = false.
Proof.
  intros H. apply FloatFacts.is_nan_spec in H.
  rewrite !ltb_spec, leb_spec, H. repeat split.
Qed.

Lemma SummaryBar_complete (s : Summary.t) :
  if Shape.complete s
  then exists stats,
         SummaryBar.SummaryBar (Some s) = Js.Returns (Some stats)
         /\ List.length stats = 9
  else SummaryBar.SummaryBar (Some s) = Js.Throws Js.TypeError.
Proof.
  unfold Shape.complete, SummaryBar.SummaryBar.
  destruct (Summary.total_pnl s); try reflexivity.
  destruct (Summary.roi_percent s); try reflexivity.
  destruct (Summary.total_stake s); try reflexivity.
  destruct (Summary.total_liability s); try reflexivity.
  destruct (Summary.avg_win s); try reflexivity.
  destruct (Summary.avg_loss s); try reflexivity.
  cbn. eexists. split; reflexivity.
Qed.

End PanelFacts.

(** X15. An outcome whose profit key is missing is shown as void, with
    no plus sign and a blank P&L figure, and from its row onward the
    running P&L column shows NaN in the neutral style, without a plus
    sign.  An outcome whose profit is [null] is shown as void too, with a
    blank P&L figure, but with the plus sign, and it counts as 0: its
    running P&L is that of the row before plus zero. *)
Theorem absent_profit_display
  (evaluations : list Evaluation.t) (bet_outcomes : list BetOutcome.t)
  (i : nat) (o : BetOutcome.t) :
  nth_error bet_outcomes i = Some o ->
  let rows := map (ResultsPanel.render_row evaluations)
                  (ResultsPanel.outcomesWithRunning bet_outcomes) in
  (BetOutcome.profit o = Js.Absent ->
   (exists row,
      nth_error rows i = Some row
      /\ ResultsPanel.result_class row = "result-void"
      /\ ResultsPanel.pnl row = [Js.Lit ""; Js.Lit "£"; Js.Blank]) /\
   (forall j row,
      i <= j -> nth_error rows j = Some row ->
      ResultsPanel.running_class row = "pnl-zero"
      /\ exists x,
           ResultsPanel.running row = [Js.Lit ""; Js.Lit "£"; Js.Fixed x 2]
           /\ is_nan x = true)) /\
  (BetOutcome.profit o = Js.Null ->
   exists row,
     nth_error rows i = Some row
     /\ ResultsPanel.result_class row = "result-void"
     /\ ResultsPanel.pnl row = [Js.Lit "+"; Js.Lit "£"; Js.Blank]
     /\ ResultsPanel.running row
        = (let x := (Spec.running_before
                       (map snd (ResultsPanel.outcomesWithRunning bet_outcomes))
                       i + 0)%float in
           [SummaryBar.sign (Js.Number x); Js.Lit "£"; Js.Fixed x 2])).
Proof.
  intros Hi rows. subst rows. split.
  - intros Hp. split.
    + rewrite nth_error_map.
      rewrite (RowFacts.running_recurrence bet_outcomes i o Hi).
      cbn [option_map]. eexists. split; [reflexivity |].
      unfold ResultsPanel.render_row.
      cbn [ResultsPanel.result_class ResultsPanel.pnl]. rewrite Hp.
      split; reflexivity.
    + intros j row Hij Hj. rewrite nth_error_map in Hj.
      destruct (nth_error (ResultsPanel.outcomesWithRunning bet_outcomes) j)
        as [[oj x] |] eqn:Ej; [| discriminate].
      cbn in Hj. injection Hj as <-.
      pose proof (RowFacts.running_nan_after bet_outcomes i j o (oj, x)
                    Hi Hp Hij Ej) as Hnan.
      cbn [snd] in Hnan.
      destruct (PanelFacts.nan_compares_false x Hnan) as [H1 [H2 H3]].
      cbn [ResultsPanel.running_class ResultsPanel.running].
      unfold ResultsPanel.runClass, SummaryBar.sign. cbn [Js.ToNumber].
      rewrite H1, H2, H3. split; [reflexivity |].
      exists x. split; [reflexivity | exact Hnan].
  - intros Hp. rewrite nth_error_map.
    rewrite (RowFacts.running_recurrence bet_outcomes i o Hi).
    cbn [option_map]. eexists. split; [reflexivity |].
    unfold ResultsPanel.render_row.
    cbn [ResultsPanel.result_class ResultsPanel.pnl ResultsPanel.running].
    rewrite Hp. repeat split.
Qed.

Lemma absent_profit_display_witness :
  (exists row,
     nth_error
       (map (ResultsPanel.render_row Sample.evaluations)
            (ResultsPanel.outcomesWithRunning Sample.with_gap)) 2 = Some row
     /\ ResultsPanel.running_class row = "pnl-zero")
  /\
  (exists row,
     nth_error
       (map (ResultsPanel.render_row Sample.evaluations)
            (ResultsPanel.outcomesWithRunning Sample.with_null)) 1 = Some row
     /\ ResultsPanel.pnl row = [Js.Lit "+"; Js.Lit "£"; Js.Blank]
     /\ ResultsPanel.running row
        = [Js.Lit "+"; Js.Lit "£"; Js.Fixed 5%float 2]).
Proof.
  split.
  - destruct (absent_profit_display Sample.evaluations Sample.with_gap 1
                (Sample.outcome "1.102" "RULE_1" Js.Absent Js.Absent Js.Absent)
                eq_refl) as [H _].
    destruct (H eq_refl) as [_ Hlater].
    eexists. split; [reflexivity |].
    exact (proj1 (Hlater 2 _ (le_S 1 1 (le_n 1)) eq_refl)).
  - destruct (absent_profit_display Sample.evaluations Sample.with_null 1
                (Sample.outcome "1.102" "RULE_1" Js.Null Js.Null Js.Null)
                eq_refl) as [_ H].
    destruct (H eq_refl) as [row [Hrow [_ [Hpnl Hrun]]]].
    exists row. split; [exact Hrow |]. split; [exact Hpnl | exact Hrun].
Defined.

(** X16. Without results the panel shows its placeholder.  With results
    it throws a TypeError when the response has no [bet_outcomes], when
    it has at least one outcome but no [evaluations], and when it carries
    a summary in which one of the six figures formatted with [toFixed]
    (total P&L, ROI, stake, liability, average win, average loss) is
    missing or [null].  A response with an empty [bet_outcomes] list shows
    "no bets" even without [evaluations] when the bar renders; a summary
    with the six figures renders its nine entries whatever the win and
    loss counts hold, and without a summary there is no bar. *)
Theorem panel_failures (r : Results.t) :
  ResultsPanel.ResultsPanel None = Js.Returns ResultsPanel.placeholder /\
  (Results.bet_outcomes r = None ->
   ResultsPanel.ResultsPanel (Some r) = Js.Throws Js.TypeError) /\
  (forall o os,
     Results.bet_outcomes r = Some (o :: os) ->
     Results.evaluations r = None ->
     ResultsPanel.ResultsPanel (Some r) = Js.Throws Js.TypeError) /\
  (forall s,
     Results.summary r = Some s -> Shape.complete s = false ->
     ResultsPanel.ResultsPanel (Some r) = Js.Throws Js.TypeError) /\
  (forall bar,
     Results.bet_outcomes r = Some [] ->
     SummaryBar.SummaryBar (Results.summary r) = Js.Returns bar ->
     exists title counts,
       ResultsPanel.ResultsPanel (Some r)
       = Js.Returns
           (ResultsPanel.report title bar counts ResultsPanel.no_bets)) /\
  (forall s,
     Shape.complete s = true ->
     exists stats,
       SummaryBar.SummaryBar (Some s) = Js.Returns (Some stats)
       /\ List.length stats = 9) /\
  SummaryBar.SummaryBar None = Js.Returns None.
Proof.
  split; [reflexivity |]. split; [| split; [| split; [| split; [| split]]]].
  - intros H. unfold ResultsPanel.ResultsPanel. now rewrite H.
  - intros o os Ho He. unfold ResultsPanel.ResultsPanel, ResultsPanel.table_body.
    rewrite Ho, He. reflexivity.
  - intros s Hs Hc. unfold ResultsPanel.ResultsPanel.
    destruct (Results.bet_outcomes r) as [os |]; [| reflexivity].
    destruct (ResultsPanel.table_body os (Results.evaluations r)) eqn:Et; cbn.
    + rewrite Hs. pose proof (PanelFacts.SummaryBar_complete s) as H.
      rewrite Hc in H. now rewrite H.
    + now rewrite (RowFacts.table_body_throws _ _ _ Et).
  - intros bar Ho Hb. unfold ResultsPanel.ResultsPanel, ResultsPanel.table_body.
    rewrite Ho. cbn. rewrite Hb. cbn. do 2 eexists. reflexivity.
  - intros s Hc. pose proof (PanelFacts.SummaryBar_complete s) as H.
    now rewrite Hc in H.
  - reflexivity.
Qed.

Lemma panel_failures_witness :
  ResultsPanel.ResultsPanel
    (Some (Results.mk "Default" Js.Absent Js.Absent Js.Absent
             (Some Sample.three_outcomes) None (Some Sample.summary)))
  = Js.Throws Js.TypeError
  /\
  ResultsPanel.ResultsPanel
    (Some (Results.mk "Default" Js.Absent Js.Absent Js.Absent
             (Some []) None
             (Some (Summary.mk (Js.Number 1%float) Js.Absent Js.Null Js.Null
                      (Js.Number 1%float) (Js.Number 1%float)
                      (Js.Number 1%float) (Js.Number 1%float)))))
  = Js.Throws Js.TypeError.
Proof.
  split.
  - destruct (panel_failures
                (Results.mk "Default" Js.Absent Js.Absent Js.Absent
                   (Some Sample.three_outcomes) None (Some Sample.summary)))
      as [_ [_ [H _]]].
    exact (H _ _ eq_refl eq_refl).
  - destruct (panel_failures
                (Results.mk "Default" Js.Absent Js.Absent Js.Absent
                   (Some []) None
                   (Some (Summary.mk (Js.Number 1%float) Js.Absent Js.Null
                            Js.Null (Js.Number 1%float) (Js.Number 1%float)
                            (Js.Number 1%float) (Js.Number 1%float)))))
      as [_ [_ [_ [H _]]]].
    exact (H _ eq_refl eq_refl).
Defined.

(* ================================================================= *)
(** * Runs that succeed, and runs in a row (App) *)

(** X17. When a run is started and the execution engine answers, the
    results become that answer, nothing is written to the console, the
    running flag is back to false, one request was sent, and the date,
    the selection and the strategy are as before. *)
Theorem successful_run_stores_answer
  (server : App.engine) (w : App.world) (strat : Strategy.t)
  (data : Results.t) :
  Js.truthy_string (App.selectedDate (App.app w)) = true ->
  App.strategy (App.app w) = Some strat ->
  server (Shape.request_of (App.app w) strat) = Js.Returns data ->
  let w' := App.handleRun server w in
  App.results (App.app w') = Some data /\
  App.console w' = App.console w /\
  App.running (App.app w') = false /\
  App.sent w' = App.sent w ++ [Shape.request_of (App.app w) strat] /\
  App.strategy (App.app w') = App.strategy (App.app w) /\
  App.selectedDate (App.app w') = App.selectedDate (App.app w) /\
  App.selectedMarkets (App.app w') = App.selectedMarkets (App.app w).
Proof.
  destruct w as [[d m st r b] snt con]. unfold Shape.request_of. cbn.
  intros Hd -> Hans. unfold App.handleRun, App.runSimulation.
  destruct m as [| id ids]; cbn in *; rewrite Hd, Hans; cbn; repeat split.
Qed.

Lemma successful_run_stores_answer_witness :
  App.results
    (App.app
       (App.handleRun Sample.answering
          (Sample.world
             (Sample.state "2024-05-01" ["1.101"] (Some Sample.strategy)))))
  = Some (Sample.results Sample.three_outcomes).
Proof.
  exact (proj1 (successful_run_stores_answer Sample.answering
                  (Sample.world
                     (Sample.state "2024-05-01" ["1.101"]
                        (Some Sample.strategy)))
                  Sample.strategy (Sample.results Sample.three_outcomes)
                  eq_refl eq_refl eq_refl)).
Defined.

(** X18. A run does not touch the date, the selection or the strategy,
    so a second run sends the same request again; and when the first run
    succeeded and the second fails, the panel keeps the results of the
    first and the console holds the failure. *)
Theorem failed_rerun_keeps_previous_results
  (first second : App.engine) (w : App.world) (strat : Strategy.t)
  (data : Results.t) (err : string) :
  Js.truthy_string (App.selectedDate (App.app w)) = true ->
  App.strategy (App.app w) = Some strat ->
  first (Shape.request_of (App.app w) strat) = Js.Returns data ->
  second (Shape.request_of (App.app w) strat) = Js.Throws err ->
  let w' := App.handleRun second (App.handleRun first w) in
  App.results (App.app w') = Some data /\
  App.sent w'
  = App.sent w ++ [Shape.request_of (App.app w) strat;
                   Shape.request_of (App.app w) strat] /\
  App.console w' = App.console w ++ [("Simulation error:", err)] /\
  App.running (App.app w') = false.
Proof.
  destruct w as [[d m st r b] snt con]. unfold Shape.request_of. cbn.
  intros Hd -> H1 H2. unfold App.handleRun, App.runSimulation.
  destruct m as [| id ids]; cbn in *; rewrite Hd, H1; cbn;
    rewrite Hd, H2; cbn; rewrite <- app_assoc; repeat split.
Qed.

Lemma failed_rerun_keeps_previous_results_witness :
  App.results
    (App.app
       (App.handleRun Sample.failing
          (App.handleRun Sample.answering
             (Sample.world
                (Sample.state "2024-05-01" [] (Some Sample.strategy))))))
  = Some (Sample.results Sample.three_outcomes).
Proof.
  exact (proj1 (failed_rerun_keeps_previous_results Sample.answering
                  Sample.failing
                  (Sample.world
                     (Sample.state "2024-05-01" [] (Some Sample.strategy)))
                  Sample.strategy (Sample.results Sample.three_outcomes)
                  "NetworkError" eq_refl eq_refl eq_refl eq_refl)).
Defined.

(* ================================================================= *)
(** * Importing files (JSON) *)

Module ImportFacts.

Import JSON.

Lemma skip_ws_blank (s : text) : forallb is_ws s = true -> skip_ws s = [].
Proof.
  induction s as [| c s IH]; cbn; [reflexivity |].
  intros H. apply andb_true_iff in H. destruct H as [Hc Hs].
  rewrite Hc. now apply IH.
Qed.

Lemma skip_ws_blank_app (s rest : text) :
  forallb is_ws s = true -> skip_ws (s ++ rest) = skip_ws rest.
Proof.
  induction s as [| c s IH]; cbn; [reflexivity |].
  intros H. apply andb_true_iff in H. destruct H as [Hc Hs].
  rewrite Hc. now apply IH.
Qed.

Lemma blank_delimited (s : text) : forallb is_ws s = true -> delimited s = true.
Proof.
  destruct s as [| c s]; cbn; [reflexivity |].
  intros H. apply andb_true_iff in H. destruct H as [Hc _].
  apply negb_true_iff. clear - Hc. JsonFacts.chars.
Qed.

Section Blank.

Variable num : Type.
Variable parse_num : text -> option num.

(** X20. A file that is empty, or holds nothing but spaces, tabs and
    line breaks, is not imported: the strategy stays as it is and the
    operator gets the alert "Invalid JSON file"; without a chosen file
    nothing happens at all. *)
Theorem blank_file_is_rejected (content : text) (e : editor num) :
  forallb is_ws content = true ->
  importJSON parse_num (Some content) e
  = mk_editor (strategy e) (alerts e ++ ["Invalid JSON file"])
  /\ importJSON parse_num None e = e.
Proof.
  intros H. split; [| reflexivity]. unfold importJSON, parse.
  cbn [parse_value]. now rewrite (skip_ws_blank content H).
Qed.

End Blank.

Section Tolerant.

Variable num : Type.
Variable print_num : num -> text.
Variable parse_num : text -> option num.

Hypothesis parse_print : forall n, parse_num (print_num n) = Some n.
Hypothesis print_token : forall n, num_token (print_num n) = true.

(** X19. An exported file can be imported with white space added
    before and after its text (a final line break, say): the strategy
    read is the one that was exported, and no alert is raised. *)
Theorem import_ignores_surrounding_space
  (exported current : editor num) (before after : text) :
  well_formed (strategy exported) = true ->
  forallb is_ws before = true ->
  forallb is_ws after = true ->
  importJSON parse_num
    (Some (before ++ exportJSON print_num exported ++ after)) current
  = mk_editor (strategy exported) (alerts current).
Proof.
  intros Hwf Hb Ha. unfold importJSON, exportJSON, parse, stringify.
  rewrite (JsonFacts.parse_value_ws num parse_num _
             (before ++ serialize print_num 0 (strategy exported) ++ after)
             (serialize print_num 0 (strategy exported) ++ after))
    by (now apply skip_ws_blank_app).
  rewrite (JsonFacts.parse_value_serialize num print_num parse_num
             parse_print print_token (strategy exported) Hwf).
  - now rewrite (skip_ws_blank after Ha).
  - pose proof (JsonFacts.size_le_length num print_num print_token
                  (strategy exported) 0) as Hsize.
    rewrite !length_app. lia.
  - now apply blank_delimited.
Qed.

End Tolerant.

End ImportFacts.

Lemma blank_file_is_rejected_witness :
  JSON.importJSON IntegerText.parse (Some [32; 10; 9; 13]%N)
    (JSON.mk_editor IntegerText.strategy [])
  = JSON.mk_editor IntegerText.strategy ["Invalid JSON file"].
Proof.
  exact (proj1 (ImportFacts.blank_file_is_rejected Z IntegerText.parse
                  [32; 10; 9; 13]%N
                  (JSON.mk_editor IntegerText.strategy []) eq_refl)).
Defined.

Lemma import_ignores_surrounding_space_witness :
  JSON.importJSON IntegerText.parse
    (Some ([32; 10]%N
           ++ JSON.exportJSON IntegerText.print
                (JSON.mk_editor IntegerText.strategy [])
           ++ [13; 10]%N))
    (JSON.mk_editor JSON.Null [])
  = JSON.mk_editor IntegerText.strategy [].
Proof.
  exact (ImportFacts.import_ignores_surrounding_space Z IntegerText.print
           IntegerText.parse IntegerFacts.parse_print IntegerFacts.print_token
           (JSON.mk_editor IntegerText.strategy [])
           (JSON.mk_editor JSON.Null []) [32; 10]%N [13; 10]%N
           eq_refl eq_refl eq_refl).
Defined.
